(** * A Bloom filter over a bit vector and a seeded hash (BloomFilterHW.py)

    Shallow embedding of the class [BloomFilter]: its constructor with the
    sizing computation [__bitsNeeded], the methods [insert], [find],
    [falsePositiveRate] and [numBitsSet], and the properties of the
    specification that can be settled on them.

    - Python integers are [Z]; [%] is floored, as [Z.modulo].
    - Python floats are binary64 values ([PrimFloat.float]); the operators the
      class applies to them are transcribed below with the exceptions they
      raise.  [**] is CPython's [float_pow]: its special cases are written
      out, and the calls it hands to the C library's [pow] (and the complex
      results of a negative base with a fractional exponent) have the
      outcome [Unmodelled].
    - The object's attributes are a record; a method is a computation in a
      state-and-exception monad over that record which also logs every index
      at which the bit vector is read.
    - [BitHash] and the key type are parameters of the development. *)

From Stdlib Require Import ZArith Bool List Lia.
From Stdlib Require Import Floats.
From stdpp Require Import base list.

Open Scope Z_scope.

(** ** Outcomes of Python evaluation *)

Inductive exn : Type :=
| ZeroDivisionError
| OverflowError
| ValueError
| IndexOutOfRange.

Inductive outcome (A : Type) : Type :=
| Ok (a : A)
| Raise (e : exn)
| Unmodelled.

Arguments Ok {A} a.
Arguments Raise {A} e.
Arguments Unmodelled {A}.

Definition obind {A B : Type} (o : outcome A) (k : A -> outcome B) : outcome B :=
  match o with
  | Ok a => k a
  | Raise e => Raise e
  | Unmodelled => Unmodelled
  end.

Declare Scope outcome_scope.
Delimit Scope outcome_scope with out.
Notation "x <- m ;; k" := (obind m (fun x => k))
  (at level 20, m at level 99, k at level 200) : outcome_scope.

(** ** Python's numeric operators, as the class uses them *)

Module PyNum.

(** An integer as the exact float-format number [z * 2^0] (not yet rounded). *)
Definition sf_of_Z (z : Z) : spec_float :=
  match z with
  | Z0 => S754_zero false
  | Zpos p => S754_finite false p 0
  | Zneg p => S754_finite true p 0
  end.

(** [float(z)]: the nearest binary64 value (ties to even);
    [OverflowError] when [z] is too large. *)
Definition float_of_int (z : Z) : outcome float :=
  let f := SF2Prim (binary_normalize prec emax z 0 false) in
  if is_infinity f then Raise OverflowError else Ok f.

(** [a / b] on two integers: the correctly rounded quotient. *)
Definition int_truediv (a b : Z) : outcome float :=
  if b =? 0 then Raise ZeroDivisionError
  else
    let q := SF2Prim (SFdiv prec emax (sf_of_Z a) (sf_of_Z b)) in
    if is_infinity q then Raise OverflowError else Ok q.

(** [a / b] on two floats. *)
Definition float_truediv (a b : float) : outcome float :=
  if (b =? 0)%float then Raise ZeroDivisionError else Ok (a / b)%float.

(** [a / b], integer by float: the integer is converted first. *)
Definition int_truediv_float (a : Z) (b : float) : outcome float :=
  (x <- float_of_int a ;; float_truediv x b)%out.

(** [a - b], integer minus float. *)
Definition int_sub_float (a : Z) (b : float) : outcome float :=
  (x <- float_of_int a ;; Ok (x - b)%float)%out.

(** [x == floor(x)] for a float. *)
Definition float_is_integer (x : float) : bool :=
  match Prim2SF x with
  | S754_zero _ => true
  | S754_infinity _ => true
  | S754_nan => false
  | S754_finite _ m e =>
      if 0 <=? e then true else Zpos m mod 2 ^ (- e) =? 0
  end.

(** [fmod(fabs(x), 2.0) == 1.0] (CPython's DOUBLE_IS_ODD_INTEGER). *)
Definition float_is_odd_integer (x : float) : bool :=
  match Prim2SF x with
  | S754_finite _ m e =>
      if e =? 0 then Z.odd (Zpos m)
      else if 0 <? e then false
      else (Zpos m mod 2 ^ (- e) =? 0) && Z.odd (Zpos m / 2 ^ (- e))
  | _ => false
  end.

(** [iv ** iw] on floats, after CPython's [float_pow]. *)
Definition float_pow (iv iw : float) : outcome float :=
  if (iw =? 0)%float then Ok 1%float
  else if is_nan iv then Ok iv
  else if is_nan iw then Ok (if (iv =? 1)%float then 1%float else iw)
  else if is_infinity iw then
    let av := abs iv in
    if (av =? 1)%float then Ok 1%float
    else if Bool.eqb (0 <? iw)%float (1 <? av)%float then Ok (abs iw)
    else Ok 0%float
  else if is_infinity iv then
    let iw_is_odd := float_is_odd_integer iw in
    if (0 <? iw)%float then Ok (if iw_is_odd then iv else abs iv)
    else Ok (if iw_is_odd
             then (if (iv <? 0)%float then neg_zero else zero)
             else 0%float)
  else if (iv =? 0)%float then
    if (iw <? 0)%float then Raise ZeroDivisionError
    else Ok (if float_is_odd_integer iw then iv else 0%float)
  else if (iv <? 0)%float then
    if negb (float_is_integer iw) then Unmodelled (* a complex result *)
    else
      let negate_result := float_is_odd_integer iw in
      if (- iv =? 1)%float
      then Ok (if negate_result then (-1)%float else 1%float)
      else Unmodelled (* libm pow(-iv, iw), negated if odd *)
  else if (iv =? 1)%float then Ok 1%float
  else Unmodelled (* libm pow(iv, iw) *).

(** [v ** w], float to an integer power: the integer is converted first. *)
Definition float_pow_int (v : float) (w : Z) : outcome float :=
  (y <- float_of_int w ;; float_pow v y)%out.

(** [int(x)]: truncation toward zero. *)
Definition int_of_float (x : float) : outcome Z :=
  match Prim2SF x with
  | S754_nan => Raise ValueError
  | S754_infinity _ => Raise OverflowError
  | S754_zero _ => Ok 0
  | S754_finite s m e =>
      let mag := if 0 <=? e then Zpos m * 2 ^ e else Zpos m / 2 ^ (- e) in
      Ok (if s then - mag else mag)
  end.

(** [a % b] on integers. *)
Definition int_mod (a b : Z) : outcome Z :=
  if b =? 0 then Raise ZeroDivisionError else Ok (a mod b).

End PyNum.
Import PyNum.

(** ** The bit vector *)

(** Modelled from the spec: the bit-array collaborator ([BitVector] is
    imported by the source and is not part of it).  Section 6 gives its
    interface: [new(size)], [get(index)], [set(index)], failing with
    [IndexOutOfRange] outside the array.  A vector is the list of its bits;
    an index below zero is treated as outside the array (none arises from
    [hash % numBits] when [numBits] is the positive size), and a negative
    size is taken to be refused with [ValueError]. *)
Module BitVector.

Abbreviation t := (list bool).

Definition new (size : Z) : outcome t :=
  if size <? 0 then Raise ValueError
  else Ok (replicate (Z.to_nat size) false).

(** The bit at index [i], when [i] is inside the array. *)
Definition bit_at (v : t) (i : Z) : option bool :=
  if i <? 0 then None else v !! Z.to_nat i.

Definition getitem (v : t) (i : Z) : outcome bool :=
  match bit_at v i with
  | Some b => Ok b
  | None => Raise IndexOutOfRange
  end.

Definition setitem (v : t) (i : Z) (b : bool) : outcome t :=
  match bit_at v i with
  | Some _ => Ok (<[Z.to_nat i := b]> v)
  | None => Raise IndexOutOfRange
  end.

(** Number of indices holding 1 (a full scan; used in statements only). *)
Fixpoint count_ones (v : t) : nat :=
  match v with
  | [] => O
  | b :: v' => ((if b then 1 else 0) + count_ones v')%nat
  end.

End BitVector.

(** ** The object and the monad its methods run in *)

Record BloomFilter : Type := mkBloomFilter {
  __numKeys : Z;
  __numHashes : Z;
  __maxFalsePositive : float;
  __numBits : Z;
  __bitVector : BitVector.t;
  __bitCount : Z
}.

Definition with_bitVector (s : BloomFilter) (v : BitVector.t) : BloomFilter :=
  {| __numKeys := __numKeys s; __numHashes := __numHashes s;
     __maxFalsePositive := __maxFalsePositive s; __numBits := __numBits s;
     __bitVector := v; __bitCount := __bitCount s |}.

Definition with_bitCount (s : BloomFilter) (c : Z) : BloomFilter :=
  {| __numKeys := __numKeys s; __numHashes := __numHashes s;
     __maxFalsePositive := __maxFalsePositive s; __numBits := __numBits s;
     __bitVector := __bitVector s; __bitCount := c |}.

(** What a method call leaves behind: its outcome, the object afterwards, and
    the indices at which it read the bit vector, in order. *)
Record Run (A : Type) : Type := mkRun {
  result : outcome A;
  final : BloomFilter;
  probes : list Z
}.

Arguments mkRun {A} _ _ _.
Arguments result {A} _.
Arguments final {A} _.
Arguments probes {A} _.

Definition M (A : Type) : Type := BloomFilter -> Run A.

Definition ret {A : Type} (a : A) : M A := fun s => mkRun (Ok a) s [].

Definition bind {A B : Type} (m : M A) (k : A -> M B) : M B :=
  fun s =>
    let r := m s in
    match result r with
    | Ok a =>
        let r' := k a (final r) in
        mkRun (result r') (final r') (probes r ++ probes r')
    | Raise e => mkRun (Raise e) (final r) (probes r)
    | Unmodelled => mkRun Unmodelled (final r) (probes r)
    end.

(** An operator evaluation inside a method. *)
Definition lift {A : Type} (o : outcome A) : M A := fun s => mkRun o s [].

(** [self.__f] *)
Definition attr {A : Type} (f : BloomFilter -> A) : M A :=
  fun s => mkRun (Ok (f s)) s [].

(** [self.__bitVector[i]] *)
Definition bit_read (i : Z) : M bool :=
  fun s => mkRun (BitVector.getitem (__bitVector s) i) s [i].

(** [self.__bitVector[i] = b] *)
Definition bit_write (i : Z) (b : bool) : M unit :=
  fun s =>
    match BitVector.setitem (__bitVector s) i b with
    | Ok v => mkRun (Ok tt) (with_bitVector s v) []
    | Raise e => mkRun (Raise e) s []
    | Unmodelled => mkRun Unmodelled s []
    end.

(** [self.__bitCount = c] *)
Definition set_bitCount (c : Z) : M unit :=
  fun s => mkRun (Ok tt) (with_bitCount s c) [].

Declare Scope py_scope.
Delimit Scope py_scope with py.
Notation "x <- m ;; k" := (bind m (fun x => k))
  (at level 20, m at level 99, k at level 200) : py_scope.

(** ** The class *)

(** [__bitsNeeded(numKeys, numHashes, maxFalsePositive)] *)
Definition __bitsNeeded (numKeys numHashes : Z) (maxFalsePositive : float)
  : outcome Z :=
  (e1 <- int_truediv 1 numHashes ;;
   p1 <- float_pow maxFalsePositive e1 ;;
   phi <- int_sub_float 1 p1 ;;
   e2 <- int_truediv 1 numKeys ;;
   p2 <- float_pow phi e2 ;;
   den <- int_sub_float 1 p2 ;;
   bitsNeeded <- int_truediv_float numHashes den ;;
   int_of_float bitsNeeded)%out.

(** The object [__init__] leaves when [__bitsNeeded] has returned [N]. *)
Definition fresh (numKeys numHashes : Z) (maxFalsePositive : float) (N : Z)
  : BloomFilter :=
  {| __numKeys := numKeys; __numHashes := numHashes;
     __maxFalsePositive := maxFalsePositive; __numBits := N;
     __bitVector := replicate (Z.to_nat N) false; __bitCount := 0 |}.

(** [BloomFilter(numKeys, numHashes, maxFalsePositive)] *)
Definition __init__ (numKeys numHashes : Z) (maxFalsePositive : float)
  : outcome BloomFilter :=
  (N <- __bitsNeeded numKeys numHashes maxFalsePositive ;;
   v <- BitVector.new N ;;
   Ok {| __numKeys := numKeys; __numHashes := numHashes;
         __maxFalsePositive := maxFalsePositive; __numBits := N;
         __bitVector := v; __bitCount := 0 |})%out.

(** [falsePositiveRate()] *)
Definition falsePositiveRate : M float :=
  (d <- attr __numHashes ;;
   c <- attr __bitCount ;;
   q <- lift (int_truediv d c) ;;
   x <- lift (int_sub_float 1 q) ;;
   n <- attr __numKeys ;;
   phi <- lift (float_pow_int x n) ;;
   y <- lift (int_sub_float 1 phi) ;;
   d' <- attr __numHashes ;;
   lift (float_pow_int y d'))%py.

(** [numBitsSet()] *)
Definition numBitsSet : M Z := attr __bitCount.

(** The object after [insert]'s loop body has found bit [num] at zero. *)
Definition marked (s : BloomFilter) (num : Z) : BloomFilter :=
  with_bitCount
    (with_bitVector s (<[Z.to_nat num := true]> (__bitVector s)))
    (__bitCount s + 1).

(** A run with one more probe in front. *)
Definition probed {A : Type} (num : Z) (r : Run A) : Run A :=
  mkRun (result r) (final r) (num :: probes r).

(** A computation that leaves the object as it found it. *)
Definition read_only {A : Type} (m : M A) : Prop :=
  forall s, final (m s) = s.

(** The bit vector has [__numBits] bits. *)
Definition shaped (s : BloomFilter) : Prop :=
  Z.of_nat (length (__bitVector s)) = __numBits s.

(** [__bitCount] is the number of bits that hold 1. *)
Definition counted (s : BloomFilter) : Prop :=
  __bitCount s = Z.of_nat (BitVector.count_ones (__bitVector s)).

(** [s'] is [s] with some more bits set: the construction parameters and the
    size are the same and no bit went back to 0. *)
Definition extends (s s' : BloomFilter) : Prop :=
  __numKeys s' = __numKeys s /\
  __numHashes s' = __numHashes s /\
  __maxFalsePositive s' = __maxFalsePositive s /\
  __numBits s' = __numBits s /\
  length (__bitVector s') = length (__bitVector s) /\
  forall i : nat, __bitVector s !! i = Some true -> __bitVector s' !! i = Some true.

(** Whether the bit at index [i] holds 1. *)
Definition bit_is_set (v : BitVector.t) (i : Z) : bool :=
  match BitVector.bit_at v i with
  | Some true => true
  | _ => false
  end.

(** ** The driver's monad

    [__main] works on one filter [b] and prints as it goes: a step of it has
    an outcome, leaves the filter, and has printed some values.  What was
    printed before an exception stays printed. *)

Inductive printed : Type :=
| Projected (rate : float)   (* "The projected false positive rate:" *)
| Missing (notFound : Z)     (* "bits are missing" *)
| FalselyFound (found : Z)   (* "bits are falsley found" *)
| Actual (rate : float).     (* "The actual false positive rate is:" *)

Record DRun (A : Type) : Type := mkDRun {
  d_result : outcome A;
  d_final : BloomFilter;
  d_printed : list printed
}.

Arguments mkDRun {A} _ _ _.
Arguments d_result {A} _.
Arguments d_final {A} _.
Arguments d_printed {A} _.

Definition D (A : Type) : Type := BloomFilter -> DRun A.

Definition dbind {A B : Type} (m : D A) (k : A -> D B) : D B :=
  fun b =>
    let r := m b in
    match d_result r with
    | Ok a =>
        let r' := k a (d_final r) in
        mkDRun (d_result r') (d_final r') (d_printed r ++ d_printed r')
    | Raise e => mkDRun (Raise e) (d_final r) (d_printed r)
    | Unmodelled => mkDRun Unmodelled (d_final r) (d_printed r)
    end.

(** A method call on [b]. *)
Definition invoke {A : Type} (m : M A) : D A :=
  fun b => let r := m b in mkDRun (result r) (final r) [].

(** [print(...)] *)
Definition print (x : printed) : D unit := fun b => mkDRun (Ok tt) b [x].

Declare Scope drv_scope.
Delimit Scope drv_scope with drv.
Notation "x <- m ;; k" := (dbind m (fun x => k))
  (at level 20, m at level 99, k at level 200) : drv_scope.

(** Sample data for the closed instances at the end: integer keys and a
    small seeded hash. *)
Definition demo_hash (key seed : Z) : Z := key * 31 + seed * 17 + 7.

Definition demo_filter : BloomFilter := fresh 10 3 0.5 8.

Section Hashing.

Variable Key : Type.
(** [BitHash(key, seed)], the imported seeded hash. *)
Variable BitHash : Key -> Z -> Z.

(** The body of [insert]'s loop, for the [n] iterations that remain, [a]
    being the seed the next one hashes with. *)
Fixpoint insert_loop (key : Key) (n : nat) (a : Z) : M unit :=
  match n with
  | O => ret tt
  | S n' =>
      let hash := BitHash key a in
      (numBits <- attr __numBits ;;
       num <- lift (int_mod hash numBits) ;;
       b <- bit_read num ;;
       _ <- (if negb b
             then (_ <- bit_write num true ;;
                   c <- attr __bitCount ;;
                   set_bitCount (c + 1))
             else ret tt) ;;
       insert_loop key n' hash)%py
  end.

(** [insert(key)] *)
Definition insert (key : Key) : M unit :=
  (d <- attr __numHashes ;; insert_loop key (Z.to_nat d) 0)%py.

(** The body of [find]'s loop; falling out of it returns [True]. *)
Fixpoint find_loop (key : Key) (n : nat) (a : Z) : M bool :=
  match n with
  | O => ret true
  | S n' =>
      let hash := BitHash key a in
      (numBits <- attr __numBits ;;
       num <- lift (int_mod hash numBits) ;;
       b <- bit_read num ;;
       if negb b then ret false else find_loop key n' hash)%py
  end.

(** [find(key)] *)
Definition find (key : Key) : M bool :=
  (d <- attr __numHashes ;; find_loop key (Z.to_nat d) 0)%py.

(** The seed chain as the specification words it: the first seed is 0,
    each probe is [h = BitHash(key, a)] at index [h mod numBits], and the
    next seed is [h]. *)
Fixpoint probe_seq (key : Key) (n : nat) (a : Z) (numBits : Z) : list Z :=
  match n with
  | O => []
  | S n' =>
      let h := BitHash key a in
      h mod numBits :: probe_seq key n' h numBits
  end.

(** The public operations, and a filter's life as a sequence of them. *)
Inductive call : Type :=
| Insert (key : Key)
| Find (key : Key)
| FalsePositiveRate
| NumBitsSet.

Definition after (c : call) (s : BloomFilter) : BloomFilter :=
  match c with
  | Insert key => final (insert key s)
  | Find key => final (find key s)
  | FalsePositiveRate => final (falsePositiveRate s)
  | NumBitsSet => final (numBitsSet s)
  end.

Definition run_calls (cs : list call) (s : BloomFilter) : BloomFilter :=
  fold_left (fun s c => after c s) cs s.


(** ** The demonstration driver [__main]

    The word list is the list of the file's lines; a handle on the open file
    is the list of the lines not read yet, and [readline()] at the end of the
    file returns the empty string, here [eof_line]. *)

Variable eof_line : Key.

(** [file.readline()]: the line read and the handle afterwards. *)
Definition readline (file : list Key) : Key * list Key :=
  match file with
  | [] => (eof_line, [])
  | line :: rest => (line, rest)
  end.

(** The first loop, [while numLines <= numKeys] with [numLines] counting up
    from 1, for the [n] iterations that remain: insert the current line and
    read the next. *)
Fixpoint insert_lines (n : nat) (line : Key) (file : list Key) : M unit :=
  match n with
  | O => ret tt
  | S n' =>
      (_ <- insert line ;;
       insert_lines n' (fst (readline file)) (snd (readline file)))%py
  end.

(** The second loop: count the lines [find] does not report; the line and
    the handle it ends with are those the third loop goes on from. *)
Fixpoint count_missing (n : nat) (line : Key) (file : list Key) (notFound : Z)
  : M (Z * Key * list Key) :=
  match n with
  | O => ret (notFound, line, file)
  | S n' =>
      (r <- find line ;;
       count_missing n' (fst (readline file)) (snd (readline file))
         (if negb r then notFound + 1 else notFound))%py
  end.

(** The third loop, [while numLines <= numKeys * 2] going on from
    [numKeys + 1]: count the lines [find] reports. *)
Fixpoint count_found (n : nat) (line : Key) (file : list Key) (found : Z)
  : M Z :=
  match n with
  | O => ret found
  | S n' =>
      (r <- find line ;;
       count_found n' (fst (readline file)) (snd (readline file))
         (if r then found + 1 else found))%py
  end.

(** [__main] from the first [open] on, for the filter [b] it has built. *)
Definition main_body (numKeys : Z) (wordlist : list Key) : D unit :=
  (_ <- invoke (insert_lines (Z.to_nat numKeys)
                (fst (readline wordlist)) (snd (readline wordlist))) ;;
   p <- invoke falsePositiveRate ;;
   _ <- print (Projected p) ;;
   r <- invoke (count_missing (Z.to_nat numKeys)
                (fst (readline wordlist)) (snd (readline wordlist)) 0) ;;
   _ <- print (Missing (fst (fst r))) ;;
   found <- invoke (count_found (Z.to_nat numKeys) (snd (fst r)) (snd r) 0) ;;
   _ <- print (FalselyFound found) ;;
   falsePositiveRate <- invoke (lift (int_truediv found numKeys)) ;;
   print (Actual falsePositiveRate))%drv.

(** [__main()]: what it prints and how it ends. *)
Definition __main (wordlist : list Key) : list printed * outcome unit :=
  match __init__ 100000 4 0x1.999999999999ap-5 with
  | Ok b =>
      let r := main_body 100000 wordlist b in (d_printed r, d_result r)
  | Raise e => ([], Raise e)
  | Unmodelled => ([], Unmodelled)
  end.

(** The lines [n] iterations of one of the loops work on, the first being
    [line] and the others read from [file]. *)
Fixpoint feed (n : nat) (line : Key) (file : list Key) : list Key :=
  match n with
  | O => []
  | S n' => line :: feed n' (fst (readline file)) (snd (readline file))
  end.

(** The current line and the handle after those [n] iterations. *)
Fixpoint feed_rest (n : nat) (line : Key) (file : list Key) : Key * list Key :=
  match n with
  | O => (line, file)
  | S n' => feed_rest n' (fst (readline file)) (snd (readline file))
  end.

(** How many of the lines [find] reports on the filter [s]. *)
Fixpoint hits (s : BloomFilter) (lines : list Key) : Z :=
  match lines with
  | [] => 0
  | line :: rest =>
      (match result (find line s) with Ok true => 1 | _ => 0 end) + hits s rest
  end.

(** * Properties *)

(** ** The bit vector *)

Lemma count_ones_le_length (v : BitVector.t) :
  (BitVector.count_ones v <= length v)%nat.
Proof.
  induction v as [|b v IH]; simpl; [lia|]. destruct b; lia.
Qed.

Lemma count_ones_replicate_false (n : nat) :
  BitVector.count_ones (replicate n false) = O.
Proof. induction n as [|n IH]; simpl; auto. Qed.

Lemma count_ones_set (v : BitVector.t) (i : nat) :
  v !! i = Some false ->
  BitVector.count_ones (<[i := true]> v) = S (BitVector.count_ones v).
Proof.
  revert i. induction v as [|b v IH]; intros [|i] H; try discriminate.
  - inversion H; subst. reflexivity.
  - change (<[S i := true]> (b :: v)) with (b :: <[i := true]> v).
    cbn [BitVector.count_ones]. rewrite (IH i H). lia.
Qed.

Lemma bit_at_Some (v : BitVector.t) (i : Z) (b : bool) :
  BitVector.bit_at v i = Some b <-> 0 <= i /\ v !! Z.to_nat i = Some b.
Proof.
  unfold BitVector.bit_at. destruct (Z.ltb_spec i 0); split.
  - discriminate.
  - intros [? _]; lia.
  - auto.
  - intros [_ ?]; assumption.
Qed.

Lemma bit_at_in_range (v : BitVector.t) (i : Z) :
  0 <= i < Z.of_nat (length v) -> exists b, BitVector.bit_at v i = Some b.
Proof.
  intros Hi. destruct (lookup_lt_is_Some_2 v (Z.to_nat i)) as [b Hb]; [lia|].
  exists b. apply bit_at_Some. split; [lia | exact Hb].
Qed.

(** ** The monad *)

Lemma bind_ret {A B : Type} (a : A) (k : A -> M B) (s : BloomFilter) :
  bind (ret a) k s = k a s.
Proof. unfold bind, ret; cbn. destruct (k a s); reflexivity. Qed.

Lemma bind_attr {A B : Type} (f : BloomFilter -> A) (k : A -> M B)
    (s : BloomFilter) :
  bind (attr f) k s = k (f s) s.
Proof. unfold bind, attr; cbn. destruct (k (f s) s); reflexivity. Qed.

Lemma bind_lift {A B : Type} (o : outcome A) (k : A -> M B) (s : BloomFilter) :
  bind (lift o) k s =
  match o with
  | Ok a => k a s
  | Raise e => mkRun (Raise e) s []
  | Unmodelled => mkRun Unmodelled s []
  end.
Proof.
  unfold bind, lift; cbn. destruct o as [a| |]; cbn; try reflexivity.
  destruct (k a s); reflexivity.
Qed.

Lemma bind_bit_read {B : Type} (i : Z) (k : bool -> M B) (s : BloomFilter) :
  bind (bit_read i) k s =
  match BitVector.bit_at (__bitVector s) i with
  | Some b => probed i (k b s)
  | None => mkRun (Raise IndexOutOfRange) s [i]
  end.
Proof.
  unfold bind, bit_read, BitVector.getitem; cbn.
  destruct (BitVector.bit_at (__bitVector s) i); reflexivity.
Qed.

Lemma bind_bit_write {B : Type} (i : Z) (b : bool) (k : unit -> M B)
    (s : BloomFilter) :
  bind (bit_write i b) k s =
  match BitVector.bit_at (__bitVector s) i with
  | Some _ => k tt (with_bitVector s (<[Z.to_nat i := b]> (__bitVector s)))
  | None => mkRun (Raise IndexOutOfRange) s []
  end.
Proof.
  unfold bind, bit_write, BitVector.setitem; cbn.
  destruct (BitVector.bit_at (__bitVector s) i); cbn; [|reflexivity].
  destruct (k tt _); reflexivity.
Qed.

Lemma bind_set_bitCount {B : Type} (c : Z) (k : unit -> M B) (s : BloomFilter) :
  bind (set_bitCount c) k s = k tt (with_bitCount s c).
Proof. unfold bind, set_bitCount; cbn. destruct (k tt _); reflexivity. Qed.

Lemma bind_assoc {A B C : Type} (m : M A) (k : A -> M B) (k' : B -> M C)
    (s : BloomFilter) :
  bind (bind m k) k' s = bind m (fun a => bind (k a) k') s.
Proof.
  unfold bind; cbn. destruct (m s) as [[a|e|] s1 l1]; cbn; try reflexivity.
  destruct (k a s1) as [[b|e|] s2 l2]; cbn; try reflexivity.
  rewrite app_assoc. reflexivity.
Qed.

(** ** One iteration of each loop *)

Lemma insert_loop_S (key : Key) (n : nat) (a : Z) (s : BloomFilter) :
  insert_loop key (S n) a s =
  let hash := BitHash key a in
  if __numBits s =? 0 then mkRun (Raise ZeroDivisionError) s []
  else
    let num := hash mod __numBits s in
    match BitVector.bit_at (__bitVector s) num with
    | None => mkRun (Raise IndexOutOfRange) s [num]
    | Some true => probed num (insert_loop key n hash s)
    | Some false => probed num (insert_loop key n hash (marked s num))
    end.
Proof.
  cbn [insert_loop]. rewrite bind_attr, bind_lift. unfold int_mod.
  destruct (__numBits s =? 0); cbn zeta; [reflexivity|].
  rewrite bind_bit_read.
  destruct (BitVector.bit_at (__bitVector s) (BitHash key a mod __numBits s))
    as [[|]|] eqn:Hb; [| |reflexivity]; cbn [negb].
  - rewrite bind_ret. reflexivity.
  - rewrite bind_assoc, bind_bit_write, Hb, bind_assoc, bind_attr,
      bind_set_bitCount.
    reflexivity.
Qed.

Lemma find_loop_S (key : Key) (n : nat) (a : Z) (s : BloomFilter) :
  find_loop key (S n) a s =
  let hash := BitHash key a in
  if __numBits s =? 0 then mkRun (Raise ZeroDivisionError) s []
  else
    let num := hash mod __numBits s in
    match BitVector.bit_at (__bitVector s) num with
    | None => mkRun (Raise IndexOutOfRange) s [num]
    | Some true => probed num (find_loop key n hash s)
    | Some false => mkRun (Ok false) s [num]
    end.
Proof.
  cbn [find_loop]. rewrite bind_attr, bind_lift. unfold int_mod.
  destruct (__numBits s =? 0); cbn zeta; [reflexivity|].
  rewrite bind_bit_read.
  destruct (BitVector.bit_at (__bitVector s) (BitHash key a mod __numBits s))
    as [[|]|] eqn:Hb; reflexivity.
Qed.

(** ** Reads leave the object alone *)

Lemma read_only_ret {A : Type} (a : A) : read_only (ret a).
Proof. intros s; reflexivity. Qed.

Lemma read_only_lift {A : Type} (o : outcome A) : read_only (lift o).
Proof. intros s; reflexivity. Qed.

Lemma read_only_attr {A : Type} (f : BloomFilter -> A) : read_only (attr f).
Proof. intros s; reflexivity. Qed.

Lemma read_only_bit_read (i : Z) : read_only (bit_read i).
Proof. intros s; reflexivity. Qed.

Lemma read_only_bind {A B : Type} (m : M A) (k : A -> M B) :
  read_only m -> (forall a, read_only (k a)) -> read_only (bind m k).
Proof.
  intros Hm Hk s. unfold bind. pose proof (Hm s) as E.
  destruct (result (m s)) as [a| |]; cbn; auto.
  rewrite E. apply Hk.
Qed.

Create HintDb read_only.
#[local] Hint Resolve read_only_ret read_only_lift read_only_attr
  read_only_bit_read : read_only.

Lemma read_only_find_loop (key : Key) (n : nat) (a : Z) :
  read_only (find_loop key n a).
Proof.
  revert a. induction n as [|n IH]; intros a; cbn [find_loop].
  - auto with read_only.
  - repeat (apply read_only_bind; [auto with read_only | intros ?]).
    destruct (negb _); auto with read_only.
Qed.

Lemma read_only_find (key : Key) : read_only (find key).
Proof.
  unfold find. apply read_only_bind; [auto with read_only | intros d].
  apply read_only_find_loop.
Qed.

Lemma read_only_falsePositiveRate : read_only falsePositiveRate.
Proof.
  unfold falsePositiveRate.
  repeat (apply read_only_bind; [auto with read_only | intros ?]).
  auto with read_only.
Qed.

Lemma read_only_numBitsSet : read_only numBitsSet.
Proof. unfold numBitsSet. auto with read_only. Qed.

(** ** Insert only sets bits *)

Lemma extends_refl (s : BloomFilter) : extends s s.
Proof. unfold extends; auto 10. Qed.

Lemma extends_trans (s1 s2 s3 : BloomFilter) :
  extends s1 s2 -> extends s2 s3 -> extends s1 s3.
Proof.
  unfold extends. intros (?&?&?&?&?&H12) (?&?&?&?&?&H23).
  repeat split; try congruence. auto.
Qed.

Lemma extends_marked (s : BloomFilter) (num : Z) : extends s (marked s num).
Proof.
  unfold extends, marked; cbn. repeat split; auto.
  - apply length_insert.
  - intros i Hi. destruct (decide (Z.to_nat num = i)) as [->|Hne].
    + rewrite list_lookup_insert_eq; [reflexivity|].
      apply lookup_lt_Some in Hi. exact Hi.
    + rewrite list_lookup_insert_ne; auto.
Qed.

Lemma extends_bit_at (s s' : BloomFilter) (i : Z) :
  extends s s' ->
  BitVector.bit_at (__bitVector s) i = Some true ->
  BitVector.bit_at (__bitVector s') i = Some true.
Proof.
  intros (_&_&_&_&_&H) Hi. apply bit_at_Some in Hi as [? ?].
  apply bit_at_Some. auto.
Qed.

Lemma extends_numBits (s s' : BloomFilter) :
  extends s s' -> __numBits s' = __numBits s.
Proof. intros (_&_&_&H&_). exact H. Qed.

Lemma extends_numHashes (s s' : BloomFilter) :
  extends s s' -> __numHashes s' = __numHashes s.
Proof. intros (_&H&_). exact H. Qed.

Lemma extends_shaped (s s' : BloomFilter) :
  extends s s' -> shaped s -> shaped s'.
Proof. unfold shaped. intros (_&_&_&HN&HL&_) H. congruence. Qed.

Lemma insert_loop_extends (key : Key) (n : nat) (a : Z) (s : BloomFilter) :
  extends s (final (insert_loop key n a s)).
Proof.
  revert a s. induction n as [|n IH]; intros a s.
  - apply extends_refl.
  - rewrite insert_loop_S; cbn zeta.
    destruct (__numBits s =? 0); [apply extends_refl|].
    destruct (BitVector.bit_at _ _) as [[|]|]; cbn.
    + apply IH.
    + eapply extends_trans; [apply extends_marked | apply IH].
    + apply extends_refl.
Qed.

Lemma insert_extends (key : Key) (s : BloomFilter) :
  extends s (final (insert key s)).
Proof. unfold insert. rewrite bind_attr. apply insert_loop_extends. Qed.

Lemma after_extends (c : call) (s : BloomFilter) : extends s (after c s).
Proof.
  destruct c as [key|key| |]; cbn [after].
  - apply insert_extends.
  - rewrite read_only_find. apply extends_refl.
  - rewrite read_only_falsePositiveRate. apply extends_refl.
  - apply extends_refl.
Qed.

Lemma run_calls_extends (cs : list call) (s : BloomFilter) :
  extends s (run_calls cs s).
Proof.
  unfold run_calls. revert s.
  induction cs as [|c cs IH]; intros s; cbn [fold_left].
  - apply extends_refl.
  - eapply extends_trans; [apply after_extends | apply IH].
Qed.

(** ** The count follows the bits *)

Lemma counted_marked (s : BloomFilter) (num : Z) :
  BitVector.bit_at (__bitVector s) num = Some false ->
  counted s -> counted (marked s num).
Proof.
  unfold counted, marked; cbn. intros Hb Hc.
  apply bit_at_Some in Hb as [_ Hb].
  rewrite (count_ones_set _ _ Hb), Hc. lia.
Qed.

Lemma insert_loop_counted (key : Key) (n : nat) (a : Z) (s : BloomFilter) :
  counted s -> counted (final (insert_loop key n a s)).
Proof.
  revert a s. induction n as [|n IH]; intros a s Hc.
  - exact Hc.
  - rewrite insert_loop_S; cbn zeta.
    destruct (__numBits s =? 0); [exact Hc|].
    destruct (BitVector.bit_at _ _) as [[|]|] eqn:Hb; cbn; auto.
    apply IH. apply counted_marked; assumption.
Qed.

Lemma after_counted (c : call) (s : BloomFilter) :
  counted s -> counted (after c s).
Proof.
  destruct c as [key|key| |]; cbn [after]; intros Hc.
  - unfold insert. rewrite bind_attr. apply insert_loop_counted, Hc.
  - rewrite read_only_find. exact Hc.
  - rewrite read_only_falsePositiveRate. exact Hc.
  - exact Hc.
Qed.

Lemma run_calls_counted (cs : list call) (s : BloomFilter) :
  counted s -> counted (run_calls cs s).
Proof.
  unfold run_calls. revert s.
  induction cs as [|c cs IH]; intros s Hc; cbn [fold_left]; auto.
  apply IH, after_counted, Hc.
Qed.

Lemma fresh_shaped (n d : Z) (P : float) (N : Z) :
  0 <= N -> shaped (fresh n d P N).
Proof. intros HN. unfold shaped, fresh; cbn. rewrite length_replicate. lia. Qed.

Lemma fresh_counted (n d : Z) (P : float) (N : Z) : counted (fresh n d P N).
Proof. unfold counted, fresh; cbn. rewrite count_ones_replicate_false. reflexivity. Qed.

(** ** The loops on a filter of positive size *)

Lemma probe_in_range (s : BloomFilter) (h : Z) :
  shaped s -> 0 < __numBits s ->
  exists b, BitVector.bit_at (__bitVector s) (h mod __numBits s) = Some b.
Proof.
  intros Hs HN. apply bit_at_in_range. rewrite Hs.
  apply Z.mod_pos_bound, HN.
Qed.

Lemma bit_at_marked (s : BloomFilter) (num : Z) (b : bool) :
  BitVector.bit_at (__bitVector s) num = Some b ->
  BitVector.bit_at (__bitVector (marked s num)) num = Some true.
Proof.
  intros Hb. apply bit_at_Some in Hb as [H0 Hb]. apply bit_at_Some.
  split; [exact H0|]. cbn. apply list_lookup_insert_eq.
  apply lookup_lt_Some in Hb. exact Hb.
Qed.

Lemma insert_loop_ok (key : Key) (n : nat) (a : Z) (s : BloomFilter) :
  shaped s -> 0 < __numBits s ->
  result (insert_loop key n a s) = Ok tt /\
  probes (insert_loop key n a s) = probe_seq key n a (__numBits s) /\
  Forall (fun i => BitVector.bit_at
                     (__bitVector (final (insert_loop key n a s))) i = Some true)
         (probe_seq key n a (__numBits s)).
Proof.
  revert a s. induction n as [|n IH]; intros a s Hs HN.
  - cbn. auto.
  - pose proof (insert_loop_extends key n (BitHash key a)) as Hext.
    rewrite insert_loop_S; cbn zeta. cbn [probe_seq].
    destruct (Z.eqb_spec (__numBits s) 0) as [E|_]; [lia|].
    destruct (probe_in_range s (BitHash key a) Hs HN) as [b Hb]. rewrite Hb.
    destruct b; cbn [probed result probes final].
    + destruct (IH (BitHash key a) s Hs HN) as (Hr & Hp & Hall).
      repeat split; [exact Hr | congruence |].
      constructor; [|exact Hall].
      eapply extends_bit_at; [apply Hext | exact Hb].
    + assert (Hs' : shaped (marked s (BitHash key a mod __numBits s)))
        by (eapply extends_shaped; [apply extends_marked | exact Hs]).
      destruct (IH (BitHash key a) _ Hs' HN) as (Hr & Hp & Hall).
      repeat split; [exact Hr | rewrite Hp; reflexivity |].
      constructor; [|exact Hall].
      eapply extends_bit_at; [apply Hext | eapply bit_at_marked, Hb].
Qed.

Lemma find_loop_true (key : Key) (n : nat) (a : Z) (s : BloomFilter) :
  __numBits s <> 0 ->
  Forall (fun i => BitVector.bit_at (__bitVector s) i = Some true)
         (probe_seq key n a (__numBits s)) ->
  find_loop key n a s = mkRun (Ok true) s (probe_seq key n a (__numBits s)).
Proof.
  revert a. induction n as [|n IH]; intros a HN Hall.
  - reflexivity.
  - rewrite find_loop_S; cbn zeta. cbn [probe_seq] in *.
    destruct (Z.eqb_spec (__numBits s) 0) as [E|_]; [contradiction|].
    inversion Hall as [|? ? Hb Hrest]; subst.
    rewrite Hb, (IH _ HN Hrest). reflexivity.
Qed.

(** ** A second insert of the same key changes nothing *)

Lemma insert_loop_settled (key : Key) (n : nat) (a : Z) (s : BloomFilter) :
  final (insert_loop key n a (final (insert_loop key n a s))) =
  final (insert_loop key n a s).
Proof.
  revert a s. induction n as [|n IH]; intros a s.
  - reflexivity.
  - pose proof (insert_loop_S key n a s) as E. cbn zeta in E.
    destruct (__numBits s =? 0) eqn:HN.
    { rewrite E. cbn [final]. rewrite E. reflexivity. }
    destruct (BitVector.bit_at (__bitVector s) (BitHash key a mod __numBits s))
      as [[|]|] eqn:Hb.
    + rewrite E. cbn [final probed].
      pose proof (insert_loop_extends key n (BitHash key a) s) as Hext.
      rewrite insert_loop_S; cbn zeta.
      rewrite (extends_numBits _ _ Hext), HN.
      rewrite (extends_bit_at _ _ _ Hext Hb).
      cbn [final probed]. apply IH.
    + rewrite E. cbn [final probed].
      set (s0 := marked s (BitHash key a mod __numBits s)) in *.
      pose proof (insert_loop_extends key n (BitHash key a) s0) as Hext.
      rewrite insert_loop_S; cbn zeta.
      rewrite (extends_numBits _ _ Hext).
      change (__numBits s0) with (__numBits s). rewrite HN.
      rewrite (extends_bit_at _ _ _ Hext (bit_at_marked _ _ _ Hb)).
      cbn [final probed]. apply IH.
    + rewrite E. cbn [final]. rewrite E. reflexivity.
Qed.

Lemma insert_settled (key : Key) (s : BloomFilter) :
  final (insert key (final (insert key s))) = final (insert key s).
Proof.
  pose proof (extends_numHashes _ _ (insert_extends key s)) as Hd.
  unfold insert in *. rewrite !bind_attr in *. rewrite Hd.
  apply insert_loop_settled.
Qed.

(** ** The probes of find against the probes of insert *)

Lemma find_loop_probes_prefix (key : Key) (n : nat) (a : Z) (s : BloomFilter) :
  exists rest,
    probes (insert_loop key n a s) = probes (find_loop key n a s) ++ rest.
Proof.
  revert a s. induction n as [|n IH]; intros a s.
  - exists []. reflexivity.
  - rewrite insert_loop_S, find_loop_S; cbn zeta.
    destruct (__numBits s =? 0); [exists []; reflexivity|].
    destruct (BitVector.bit_at _ _) as [[|]|]; cbn [probed probes].
    + destruct (IH (BitHash key a) s) as [rest Hr]. exists rest.
      rewrite Hr. reflexivity.
    + eexists. reflexivity.
    + exists []. reflexivity.
Qed.

Lemma find_loop_probes_all (key : Key) (n : nat) (a : Z) (s : BloomFilter) :
  result (find_loop key n a s) <> Ok false ->
  probes (find_loop key n a s) = probes (insert_loop key n a s).
Proof.
  revert a s. induction n as [|n IH]; intros a s.
  - reflexivity.
  - rewrite insert_loop_S, find_loop_S; cbn zeta.
    destruct (__numBits s =? 0); [reflexivity|].
    destruct (BitVector.bit_at _ _) as [[|]|]; cbn [probed probes result].
    + intros H. rewrite (IH _ _ H). reflexivity.
    + intros H. contradiction H. reflexivity.
    + reflexivity.
Qed.

Lemma find_loop_false_last (key : Key) (n : nat) (a : Z) (s : BloomFilter) :
  result (find_loop key n a s) = Ok false ->
  exists front i,
    probes (find_loop key n a s) = front ++ [i] /\
    BitVector.bit_at (__bitVector s) i = Some false /\
    Forall (fun j => BitVector.bit_at (__bitVector s) j = Some true) front.
Proof.
  revert a. induction n as [|n IH]; intros a.
  - cbn. discriminate.
  - rewrite find_loop_S; cbn zeta.
    destruct (__numBits s =? 0); [discriminate|].
    destruct (BitVector.bit_at _ _) as [[|]|] eqn:Hb; cbn [probed probes result].
    + intros H. destruct (IH _ H) as (front & i & Hp & Hi & Hall).
      exists (BitHash key a mod __numBits s :: front), i.
      rewrite Hp. repeat split; auto.
    + intros _. exists [], (BitHash key a mod __numBits s). auto.
    + discriminate.
Qed.

Lemma probe_seq_length (key : Key) (n : nat) (a N : Z) :
  length (probe_seq key n a N) = n.
Proof.
  revert a. induction n as [|n IH]; intros a; cbn; [reflexivity|].
  rewrite IH. reflexivity.
Qed.

Lemma insert_loop_count_bounds (key : Key) (n : nat) (a : Z) (s : BloomFilter) :
  __bitCount s <= __bitCount (final (insert_loop key n a s))
  <= __bitCount s + Z.of_nat n.
Proof.
  revert a s. induction n as [|n IH]; intros a s.
  - cbn. lia.
  - rewrite insert_loop_S; cbn zeta.
    destruct (__numBits s =? 0); [cbn; lia|].
    destruct (BitVector.bit_at _ _) as [[|]|]; cbn [probed final]; try lia.
    + specialize (IH (BitHash key a) s). lia.
    + specialize (IH (BitHash key a) (marked s (BitHash key a mod __numBits s))).
      cbn [marked with_bitCount __bitCount] in IH. lia.
Qed.

Lemma find_loop_answers (key : Key) (n : nat) (a : Z) (s : BloomFilter) :
  shaped s -> 0 < __numBits s ->
  exists b, result (find_loop key n a s) = Ok b.
Proof.
  intros Hs HN. revert a. induction n as [|n IH]; intros a.
  - exists true. reflexivity.
  - rewrite find_loop_S; cbn zeta.
    destruct (Z.eqb_spec (__numBits s) 0) as [E|_]; [lia|].
    destruct (probe_in_range s (BitHash key a) Hs HN) as [b Hb]. rewrite Hb.
    destruct b; cbn [probed result]; [apply IH | exists false; reflexivity].
Qed.

Lemma run_calls_fresh (n d : Z) (P : float) (N : Z) (cs : list call) :
  0 <= N ->
  shaped (run_calls cs (fresh n d P N)) /\
  counted (run_calls cs (fresh n d P N)) /\
  __numBits (run_calls cs (fresh n d P N)) = N /\
  __numHashes (run_calls cs (fresh n d P N)) = d.
Proof.
  intros HN. pose proof (run_calls_extends cs (fresh n d P N)) as Hext.
  repeat split.
  - eapply extends_shaped; [exact Hext | apply fresh_shaped, HN].
  - apply run_calls_counted, fresh_counted.
  - apply (extends_numBits _ _ Hext).
  - apply (extends_numHashes _ _ Hext).
Qed.

(** ** The claims *)

(** C1. No false negatives.  On a filter whose construction sized the bit
    vector at [N >= 1] bits, whatever calls came before, [insert(key)]
    returns, and after it every [find(key)] returns [True], whatever calls
    (inserts of any keys, finds, reads of the counters) come in between. *)
Theorem no_false_negatives (n d : Z) (P : float) (N : Z)
    (before : list call) (key : Key) (between : list call) :
  1 <= N ->
  result (insert key (run_calls before (fresh n d P N))) = Ok tt /\
  result (find key
            (run_calls between
               (final (insert key (run_calls before (fresh n d P N))))))
  = Ok true.
Proof.
  intros HN.
  destruct (run_calls_fresh n d P N before) as (Hs & _ & HNb & Hd); [lia|].
  set (s1 := run_calls before (fresh n d P N)) in *.
  assert (HN1 : 0 < __numBits s1) by lia.
  pose proof (insert_extends key s1) as Hext12.
  pose proof (run_calls_extends between (final (insert key s1))) as Hext23.
  set (s3 := run_calls between (final (insert key s1))) in *.
  unfold find, insert in *. rewrite !bind_attr in *.
  destruct (insert_loop_ok key (Z.to_nat (__numHashes s1)) 0 s1 Hs HN1)
    as (Hr & _ & Hall).
  split; [exact Hr|].
  assert (Hd3 : __numHashes s3 = __numHashes s1).
  { rewrite (extends_numHashes _ _ Hext23). apply (extends_numHashes _ _ Hext12). }
  assert (HN3 : __numBits s3 = __numBits s1).
  { rewrite (extends_numBits _ _ Hext23). apply (extends_numBits _ _ Hext12). }
  rewrite find_loop_true.
  - reflexivity.
  - lia.
  - rewrite Hd3, HN3. eapply Forall_impl; [exact Hall|].
    intros i Hi. eapply extends_bit_at; [exact Hext23 | exact Hi].
Qed.



(** C4. Occupancy accounting.  On every filter reached from construction by
    calls of [insert], [find], [numBitsSet] and [falsePositiveRate],
    [__bitCount] is the number of bits that hold 1, it lies between 0 and
    [__numBits], and [numBitsSet()] returns it, reading no bit of the vector
    and changing nothing. *)
Theorem occupancy_invariant (n d : Z) (P : float) (N : Z) (cs : list call) :
  0 <= N ->
  __bitCount (run_calls cs (fresh n d P N))
  = Z.of_nat (BitVector.count_ones (__bitVector (run_calls cs (fresh n d P N)))) /\
  0 <= __bitCount (run_calls cs (fresh n d P N))
    <= __numBits (run_calls cs (fresh n d P N)) /\
  numBitsSet (run_calls cs (fresh n d P N))
  = mkRun (Ok (Z.of_nat (BitVector.count_ones
                           (__bitVector (run_calls cs (fresh n d P N))))))
          (run_calls cs (fresh n d P N)) [].
Proof.
  intros HN. destruct (run_calls_fresh n d P N cs HN) as (Hs & Hc & _ & _).
  set (s := run_calls cs (fresh n d P N)) in *.
  pose proof (count_ones_le_length (__bitVector s)) as Hle.
  unfold shaped in Hs. unfold counted in Hc.
  repeat split; try lia.
  unfold numBitsSet, attr. rewrite Hc. reflexivity.
Qed.

(** C5 (as amended).  On a filter of [N >= 1] bits, [insert(key)] probes
    exactly the [numHashes] indices of the seed chain (first seed 0,
    [h = BitHash(key, a)], index [h mod numBits], next seed [h]);
    [find(key)] returns an answer and probes a prefix of that sequence: the
    whole of it when it answers [True], and when it answers [False] it stops
    at the first probed bit that holds 0. *)
Theorem find_probes_prefix_of_insert (n d : Z) (P : float) (N : Z)
    (cs : list call) (key : Key) :
  1 <= N ->
  probes (insert key (run_calls cs (fresh n d P N)))
  = probe_seq key (Z.to_nat d) 0 N /\
  length (probes (insert key (run_calls cs (fresh n d P N)))) = Z.to_nat d /\
  (exists rest,
     probes (insert key (run_calls cs (fresh n d P N)))
     = probes (find key (run_calls cs (fresh n d P N))) ++ rest) /\
  (exists b, result (find key (run_calls cs (fresh n d P N))) = Ok b) /\
  (result (find key (run_calls cs (fresh n d P N))) = Ok true ->
   probes (find key (run_calls cs (fresh n d P N)))
   = probes (insert key (run_calls cs (fresh n d P N)))) /\
  (result (find key (run_calls cs (fresh n d P N))) = Ok false ->
   exists front i,
     probes (find key (run_calls cs (fresh n d P N))) = front ++ [i] /\
     BitVector.bit_at (__bitVector (run_calls cs (fresh n d P N))) i = Some false /\
     Forall (fun j => BitVector.bit_at
                        (__bitVector (run_calls cs (fresh n d P N))) j = Some true)
            front).
Proof.
  intros HN.
  destruct (run_calls_fresh n d P N cs) as (Hs & _ & HNb & Hd); [lia|].
  set (s := run_calls cs (fresh n d P N)) in *.
  assert (HN1 : 0 < __numBits s) by lia.
  unfold find, insert. rewrite !bind_attr, Hd.
  destruct (insert_loop_ok key (Z.to_nat d) 0 s Hs HN1) as (_ & Hp & _).
  split; [rewrite Hp, HNb; reflexivity|].
  split; [rewrite Hp; apply probe_seq_length|].
  repeat split.
  - apply find_loop_probes_prefix.
  - apply find_loop_answers; assumption.
  - intros H. apply find_loop_probes_all. rewrite H. discriminate.
  - apply find_loop_false_last.
Qed.

(** C6. [find], [numBitsSet] and [falsePositiveRate] are pure reads: on every
    object and for every key, whatever they return or raise, the object
    afterwards (bit vector, count, size and the three parameters) is the
    object before. *)
Theorem reads_leave_filter_unchanged (key : Key) (s : BloomFilter) :
  final (find key s) = s /\
  final (numBitsSet s) = s /\
  final (falsePositiveRate s) = s.
Proof.
  split; [|split].
  - apply read_only_find.
  - apply read_only_numBitsSet.
  - apply read_only_falsePositiveRate.
Qed.

(** C9. Idempotence of [insert]: on every object, a second [insert(key)]
    right after the first leaves the object as the first left it, so
    [numBitsSet()] returns the same count. *)
Theorem insert_twice_same_count (key : Key) (s : BloomFilter) :
  result (numBitsSet (final (insert key (final (insert key s)))))
  = result (numBitsSet (final (insert key s))) /\
  final (insert key (final (insert key s))) = final (insert key s).
Proof.
  rewrite insert_settled. split; reflexivity.
Qed.

(** C10. On a freshly constructed filter with [numHashes >= 1] and
    [numBits >= 1], [find(key)] returns [False] for every key after a single
    probe, the first index of the seed chain. *)
Theorem find_on_fresh_is_false (n d : Z) (P : float) (N : Z) (key : Key) :
  1 <= d -> 1 <= N ->
  find key (fresh n d P N)
  = mkRun (Ok false) (fresh n d P N) [BitHash key 0 mod N].
Proof.
  intros Hd HN. unfold find. rewrite bind_attr.
  change (__numHashes (fresh n d P N)) with d.
  destruct (Z.to_nat d) as [|m] eqn:Em; [lia|].
  rewrite find_loop_S; cbn zeta.
  change (__numBits (fresh n d P N)) with N.
  destruct (Z.eqb_spec N 0) as [E|_]; [lia|].
  assert (Hb : BitVector.bit_at (__bitVector (fresh n d P N)) (BitHash key 0 mod N)
               = Some false).
  { pose proof (Z.mod_pos_bound (BitHash key 0) N ltac:(lia)) as Hr.
    apply bit_at_Some. split; [lia|]. cbn.
    apply lookup_replicate_2. lia. }
  rewrite Hb. reflexivity.
Qed.

(** ** Further properties of the operations *)


(** Monotone occupancy (spec section 8): on every object, [insert(key)]
    never lowers [__bitCount] and raises it by at most the number of loop
    iterations, [numHashes]. *)
Theorem insert_count_monotone (key : Key) (s : BloomFilter) :
  __bitCount s <= __bitCount (final (insert key s))
  <= __bitCount s + Z.of_nat (Z.to_nat (__numHashes s)).
Proof.
  unfold insert. rewrite bind_attr. apply insert_loop_count_bounds.
Qed.

(** Insert and find have no failure mode on a constructed filter of at least
    one bit (spec sections 4.2, 4.3 and 7): after any calls, [insert(key)]
    returns and [find(key)] returns a boolean; in particular no index leaves
    the bit vector. *)
Theorem insert_find_never_raise (n d : Z) (P : float) (N : Z)
    (cs : list call) (key : Key) :
  1 <= N ->
  result (insert key (run_calls cs (fresh n d P N))) = Ok tt /\
  exists b, result (find key (run_calls cs (fresh n d P N))) = Ok b.
Proof.
  intros HN.
  destruct (run_calls_fresh n d P N cs) as (Hs & _ & HNb & _); [lia|].
  unfold insert, find. rewrite !bind_attr. split.
  - apply insert_loop_ok; [exact Hs | lia].
  - apply find_loop_answers; [exact Hs | lia].
Qed.

(** On a filter of zero bits (which the constructor does produce, see
    [init_accepts_invalid_parameters]) with [numHashes >= 1], [insert] and
    [find] both end in [ZeroDivisionError] at [hash % numBits], before any
    bit is read, and leave the object as it was. *)
Theorem zero_bits_filter_raises (n d : Z) (P : float) (key : Key) :
  1 <= d ->
  insert key (fresh n d P 0) = mkRun (Raise ZeroDivisionError) (fresh n d P 0) [] /\
  find key (fresh n d P 0) = mkRun (Raise ZeroDivisionError) (fresh n d P 0) [].
Proof.
  intros Hd. unfold insert, find. rewrite !bind_attr.
  change (__numHashes (fresh n d P 0)) with d.
  destruct (Z.to_nat d) as [|m] eqn:Em; [lia|].
  rewrite insert_loop_S, find_loop_S. split; reflexivity.
Qed.


(** ** Which bits are set, and what find answers *)

Lemma bit_is_set_true (v : BitVector.t) (i : Z) :
  bit_is_set v i = true <-> BitVector.bit_at v i = Some true.
Proof.
  unfold bit_is_set. destruct (BitVector.bit_at v i) as [[|]|]; split;
    intros H; try reflexivity; discriminate.
Qed.

Lemma forallb_agree {A : Type} (f g : A -> bool) (l : list A) :
  (forall x, x ∈ l -> f x = g x) -> forallb f l = forallb g l.
Proof.
  induction l as [|x l IH]; intros H; cbn; [reflexivity|].
  rewrite (H x), IH; [reflexivity | | apply list_elem_of_here].
  intros y Hy. apply H. apply list_elem_of_further, Hy.
Qed.

Lemma forallb_true_iff {A : Type} (f : A -> bool) (l : list A) :
  forallb f l = true <-> forall x, x ∈ l -> f x = true.
Proof.
  induction l as [|x l IH]; cbn.
  - split; [intros _ y Hy; inversion Hy | reflexivity].
  - rewrite andb_true_iff, IH. split.
    + intros [Hx Hl] y Hy. inversion Hy; subst; auto.
    + intros H. split; [apply H, list_elem_of_here|].
      intros y Hy. apply H, list_elem_of_further, Hy.
Qed.

Lemma bit_at_marked_iff (s : BloomFilter) (num i : Z) (b0 : bool) :
  BitVector.bit_at (__bitVector s) num = Some b0 ->
  BitVector.bit_at (__bitVector (marked s num)) i = Some true <->
  BitVector.bit_at (__bitVector s) i = Some true \/ i = num.
Proof.
  intros Hnum. pose proof Hnum as Hnum'. apply bit_at_Some in Hnum' as [Hn0 Hl].
  split.
  - intros Hi. destruct (decide (i = num)) as [->|Hne]; [right; reflexivity|].
    left. apply bit_at_Some in Hi as [Hi0 Hi]. apply bit_at_Some.
    split; [exact Hi0|]. cbn in Hi.
    rewrite list_lookup_insert_ne in Hi; [exact Hi | lia].
  - intros [Hi | ->]; [|eapply bit_at_marked, Hnum].
    eapply extends_bit_at; [apply extends_marked | exact Hi].
Qed.

Lemma insert_loop_bit_iff (key : Key) (n : nat) (a : Z) (s : BloomFilter) (i : Z) :
  shaped s -> 0 < __numBits s ->
  BitVector.bit_at (__bitVector (final (insert_loop key n a s))) i = Some true <->
  BitVector.bit_at (__bitVector s) i = Some true \/
  i ∈ probe_seq key n a (__numBits s).
Proof.
  revert a s. induction n as [|n IH]; intros a s Hs HN.
  - cbn. split; [auto | intros [H|H]; [exact H | inversion H]].
  - rewrite insert_loop_S; cbn zeta. cbn [probe_seq].
    destruct (Z.eqb_spec (__numBits s) 0) as [E|_]; [lia|].
    destruct (probe_in_range s (BitHash key a) Hs HN) as [b Hb]. rewrite Hb.
    rewrite elem_of_cons.
    destruct b; cbn [probed final].
    + rewrite (IH _ _ Hs HN). split; [tauto|].
      intros [H|[->|H]]; auto.
    + assert (Hs' : shaped (marked s (BitHash key a mod __numBits s)))
        by (eapply extends_shaped; [apply extends_marked | exact Hs]).
      rewrite (IH _ _ Hs' HN), (bit_at_marked_iff _ _ _ _ Hb).
      change (__numBits (marked s (BitHash key a mod __numBits s)))
        with (__numBits s).
      tauto.
Qed.

Lemma find_loop_forallb (key : Key) (n : nat) (a : Z) (s : BloomFilter) :
  shaped s -> 0 < __numBits s ->
  result (find_loop key n a s)
  = Ok (forallb (bit_is_set (__bitVector s)) (probe_seq key n a (__numBits s))).
Proof.
  intros Hs HN. revert a. induction n as [|n IH]; intros a.
  - reflexivity.
  - rewrite find_loop_S; cbn zeta. cbn [probe_seq forallb].
    destruct (Z.eqb_spec (__numBits s) 0) as [E|_]; [lia|].
    destruct (probe_in_range s (BitHash key a) Hs HN) as [b Hb].
    unfold bit_is_set at 1. rewrite Hb.
    destruct b; cbn [probed result andb]; [apply IH | reflexivity].
Qed.

Lemma after_bit_iff (c : call) (s : BloomFilter) (i : Z) :
  shaped s -> 0 < __numBits s ->
  BitVector.bit_at (__bitVector (after c s)) i = Some true <->
  BitVector.bit_at (__bitVector s) i = Some true \/
  exists key, c = Insert key /\
    i ∈ probe_seq key (Z.to_nat (__numHashes s)) 0 (__numBits s).
Proof.
  intros Hs HN. destruct c as [key|key| |]; cbn [after].
  - unfold insert. rewrite bind_attr, (insert_loop_bit_iff _ _ _ _ _ Hs HN).
    split; [intros [H|H]; [left; exact H | right; exists key; auto]|].
    intros [H|(k & [= <-] & H)]; auto.
  - rewrite read_only_find. split; [auto|]. intros [H|(k & E & _)]; [exact H | discriminate].
  - rewrite read_only_falsePositiveRate.
    split; [auto|]. intros [H|(k & E & _)]; [exact H | discriminate].
  - cbn. split; [auto|]. intros [H|(k & E & _)]; [exact H | discriminate].
Qed.

Lemma run_calls_bit_iff (cs : list call) (s : BloomFilter) (i : Z) :
  shaped s -> 0 < __numBits s ->
  BitVector.bit_at (__bitVector (run_calls cs s)) i = Some true <->
  BitVector.bit_at (__bitVector s) i = Some true \/
  exists key, Insert key ∈ cs /\
    i ∈ probe_seq key (Z.to_nat (__numHashes s)) 0 (__numBits s).
Proof.
  unfold run_calls. revert s.
  induction cs as [|c cs IH]; intros s Hs HN; cbn [fold_left].
  - split; [auto|]. intros [H|(k & Hk & _)]; [exact H | inversion Hk].
  - pose proof (after_extends c s) as Hext.
    rewrite IH;
      [| eapply extends_shaped; eassumption
       | rewrite (extends_numBits _ _ Hext); exact HN].
    rewrite (extends_numBits _ _ Hext), (extends_numHashes _ _ Hext).
    rewrite (after_bit_iff c s i Hs HN). split.
    + intros [[H|(k & -> & H)]|(k & Hk & H)]; auto.
      * right. exists k. split; [apply list_elem_of_here | exact H].
      * right. exists k. split; [apply list_elem_of_further, Hk | exact H].
    + intros [H|(k & Hk & H)]; auto.
      apply elem_of_cons in Hk as [<-|Hk].
      * left. right. exists k. auto.
      * right. exists k. auto.
Qed.

Lemma fresh_no_bit (n d : Z) (P : float) (N i : Z) :
  BitVector.bit_at (__bitVector (fresh n d P N)) i <> Some true.
Proof.
  intros H. apply bit_at_Some in H as [_ H]. cbn in H.
  apply lookup_replicate in H as [H _]. discriminate.
Qed.

Lemma find_after_insert (key : Key) (s s' : BloomFilter) :
  shaped s -> 0 < __numBits s ->
  extends (final (insert key s)) s' ->
  result (find key s') = Ok true.
Proof.
  intros Hs HN Hext.
  pose proof (insert_extends key s) as Hext0.
  assert (Hs' : shaped s').
  { eapply extends_shaped; [exact Hext|]. eapply extends_shaped; eassumption. }
  assert (HN' : __numBits s' = __numBits s).
  { rewrite (extends_numBits _ _ Hext). apply (extends_numBits _ _ Hext0). }
  assert (Hd' : __numHashes s' = __numHashes s).
  { rewrite (extends_numHashes _ _ Hext). apply (extends_numHashes _ _ Hext0). }
  unfold find. rewrite bind_attr, find_loop_forallb; [|exact Hs' | lia].
  f_equal. apply forallb_true_iff. intros i Hi. apply bit_is_set_true.
  eapply extends_bit_at; [exact Hext|].
  unfold insert. rewrite bind_attr.
  apply insert_loop_bit_iff; [exact Hs | exact HN |].
  right. rewrite Hd', HN' in Hi. exact Hi.
Qed.

Lemma insert_bit_iff (key : Key) (s : BloomFilter) (i : Z) :
  shaped s -> 0 < __numBits s ->
  BitVector.bit_at (__bitVector (final (insert key s))) i = Some true <->
  BitVector.bit_at (__bitVector s) i = Some true \/
  i ∈ probe_seq key (Z.to_nat (__numHashes s)) 0 (__numBits s).
Proof.
  intros Hs HN. unfold insert. rewrite bind_attr.
  apply insert_loop_bit_iff; assumption.
Qed.

Lemma insert_counted (key : Key) (s : BloomFilter) :
  counted s -> counted (final (insert key s)).
Proof. apply (after_counted (Insert key)). Qed.

Lemma bit_in_range_total (s : BloomFilter) (j : nat) :
  (j < length (__bitVector s))%nat ->
  exists b, __bitVector s !! j = Some b /\
            (b = true <-> BitVector.bit_at (__bitVector s) (Z.of_nat j) = Some true).
Proof.
  intros Hj. destruct (lookup_lt_is_Some_2 _ _ Hj) as [b Hb]. exists b.
  split; [exact Hb|]. rewrite bit_at_Some, Nat2Z.id, Hb. split.
  - intros ->. split; [lia | reflexivity].
  - intros [_ [= ->]]. reflexivity.
Qed.

Lemma same_bits_same_filter (s1 s2 : BloomFilter) :
  __numKeys s1 = __numKeys s2 -> __numHashes s1 = __numHashes s2 ->
  __maxFalsePositive s1 = __maxFalsePositive s2 ->
  __numBits s1 = __numBits s2 ->
  length (__bitVector s1) = length (__bitVector s2) ->
  counted s1 -> counted s2 ->
  (forall i, BitVector.bit_at (__bitVector s1) i = Some true <->
             BitVector.bit_at (__bitVector s2) i = Some true) ->
  s1 = s2.
Proof.
  intros Hk Hd HP HN HL Hc1 Hc2 Hbits.
  assert (Hv : __bitVector s1 = __bitVector s2).
  { apply list_eq. intros j.
    destruct (Nat.lt_ge_cases j (length (__bitVector s1))) as [Hj|Hj].
    - destruct (bit_in_range_total s1 j Hj) as (b1 & E1 & H1).
      destruct (bit_in_range_total s2 j ltac:(lia)) as (b2 & E2 & H2).
      rewrite E1, E2. f_equal. specialize (Hbits (Z.of_nat j)).
      destruct b1, b2; try reflexivity.
      + symmetry. apply H2, Hbits, H1. reflexivity.
      + apply H1, Hbits, H2. reflexivity.
    - rewrite !(proj2 (lookup_ge_None _ _)); [reflexivity | lia | lia]. }
  unfold counted in *. rewrite Hv in Hc1.
  destruct s1, s2; cbn in *. congruence.
Qed.

Lemma length_remove_dups_cons (x : Z) (L L' : list Z) :
  (forall y, y ∈ L' <-> y ∈ L /\ y <> x) ->
  length (remove_dups (x :: L)) = S (length (remove_dups L')).
Proof.
  clear eof_line BitHash Key.
  intros H.
  change (S (length (remove_dups L'))) with (length (x :: remove_dups L')).
  apply Permutation_length, NoDup_Permutation.
  - apply NoDup_remove_dups.
  - constructor; [|apply NoDup_remove_dups].
    rewrite elem_of_remove_dups, H. tauto.
  - intros y. rewrite elem_of_remove_dups, !elem_of_cons, elem_of_remove_dups, H.
    destruct (decide (y = x)); tauto.
Qed.

Lemma bit_is_set_marked (s : BloomFilter) (num i : Z) (b0 : bool) :
  BitVector.bit_at (__bitVector s) num = Some b0 ->
  bit_is_set (__bitVector (marked s num)) i = false <->
  bit_is_set (__bitVector s) i = false /\ i <> num.
Proof.
  clear eof_line BitHash Key.
  intros Hnum.
  pose proof (bit_at_marked_iff s num i b0 Hnum) as H.
  rewrite <- !bit_is_set_true in H.
  destruct (bit_is_set (__bitVector (marked s num)) i),
           (bit_is_set (__bitVector s) i), (decide (i = num));
    intuition congruence.
Qed.

Lemma insert_loop_count_exact (key : Key) (n : nat) (a : Z) (s : BloomFilter) :
  shaped s -> 0 < __numBits s ->
  __bitCount (final (insert_loop key n a s))
  = __bitCount s
    + Z.of_nat (length (remove_dups
                          (filter (fun i => bit_is_set (__bitVector s) i = false)
                                  (probe_seq key n a (__numBits s))))).
Proof.
  revert a s. induction n as [|n IH]; intros a s Hs HN.
  - cbn. lia.
  - rewrite insert_loop_S; cbn zeta. cbn [probe_seq].
    destruct (Z.eqb_spec (__numBits s) 0) as [E|_]; [lia|].
    destruct (probe_in_range s (BitHash key a) Hs HN) as [b Hb]. rewrite Hb.
    destruct b; cbn [probed final].
    + rewrite filter_cons_False; [apply IH; assumption|].
      rewrite (proj2 (bit_is_set_true _ _) Hb). discriminate.
    + assert (Hs' : shaped (marked s (BitHash key a mod __numBits s)))
        by (eapply extends_shaped; [apply extends_marked | exact Hs]).
      rewrite filter_cons_True.
      2:{ unfold bit_is_set. rewrite Hb. reflexivity. }
      rewrite (IH _ _ Hs' HN).
      change (__numBits (marked s (BitHash key a mod __numBits s)))
        with (__numBits s).
      rewrite (length_remove_dups_cons _ _
                 (filter (fun i => bit_is_set
                            (__bitVector (marked s (BitHash key a mod __numBits s))) i
                          = false)
                         (probe_seq key n (BitHash key a) (__numBits s)))).
      * cbn [marked with_bitCount __bitCount]. lia.
      * intros y. rewrite !list_elem_of_filter, (bit_is_set_marked _ _ _ _ Hb).
        tauto.
Qed.

(** Whatever the object and whether or not the loop ends in an exception,
    [insert(key)] changes neither the parameters nor the size nor the length
    of the bit vector, and every bit that held 1 still holds 1. *)
Theorem insert_only_sets_bits (key : Key) (s : BloomFilter) :
  __numKeys (final (insert key s)) = __numKeys s /\
  __numHashes (final (insert key s)) = __numHashes s /\
  __maxFalsePositive (final (insert key s)) = __maxFalsePositive s /\
  __numBits (final (insert key s)) = __numBits s /\
  length (__bitVector (final (insert key s))) = length (__bitVector s) /\
  forall i,
    BitVector.bit_at (__bitVector s) i = Some true ->
    BitVector.bit_at (__bitVector (final (insert key s))) i = Some true.
Proof.
  pose proof (insert_extends key s) as Hext.
  split; [|split; [|split; [|split; [|split]]]]; try apply Hext.
  intros i. apply extends_bit_at, Hext.
Qed.

(** On a constructed filter of at least one bit, after any calls,
    [find(key)] returns [True] exactly when every index of the key's seed
    chain holds 1, and [False] otherwise. *)
Theorem find_answers_all_probes_set (n d : Z) (P : float) (N : Z)
    (cs : list call) (key : Key) :
  1 <= N ->
  result (find key (run_calls cs (fresh n d P N)))
  = Ok (forallb (bit_is_set (__bitVector (run_calls cs (fresh n d P N))))
                (probe_seq key (Z.to_nat d) 0 N)).
Proof.
  intros HN.
  destruct (run_calls_fresh n d P N cs) as (Hs & _ & HNb & Hd); [lia|].
  unfold find. rewrite bind_attr, find_loop_forallb; [|exact Hs | lia].
  rewrite Hd, HNb. reflexivity.
Qed.

(** On a constructed filter of at least one bit, after any calls, the bits
    that hold 1 are exactly the indices on the seed chain of some inserted
    key. *)
Theorem set_bits_are_inserted_probes (n d : Z) (P : float) (N : Z)
    (cs : list call) (i : Z) :
  1 <= N ->
  BitVector.bit_at (__bitVector (run_calls cs (fresh n d P N))) i = Some true <->
  exists key, Insert key ∈ cs /\ i ∈ probe_seq key (Z.to_nat d) 0 N.
Proof.
  intros HN.
  rewrite run_calls_bit_iff; [| apply fresh_shaped; lia | cbn; lia].
  cbn [fresh __numHashes __numBits]. split; [|auto].
  intros [H|H]; [|exact H]. exfalso. exact (fresh_no_bit _ _ _ _ _ H).
Qed.

(** What a filter knows: after any calls on a constructed filter of at least
    one bit, [find(key)] returns [True] exactly when every index on the key's
    seed chain is on the seed chain of some inserted key (the key itself or
    others, which is a false positive). *)
Theorem find_true_iff_probes_covered (n d : Z) (P : float) (N : Z)
    (cs : list call) (key : Key) :
  1 <= N ->
  result (find key (run_calls cs (fresh n d P N))) = Ok true <->
  forall i, i ∈ probe_seq key (Z.to_nat d) 0 N ->
    exists key', Insert key' ∈ cs /\ i ∈ probe_seq key' (Z.to_nat d) 0 N.
Proof.
  intros HN.
  destruct (run_calls_fresh n d P N cs) as (Hs & _ & HNb & Hd); [lia|].
  unfold find. rewrite bind_attr, find_loop_forallb; [|exact Hs | lia].
  rewrite Hd, HNb. split.
  - intros [= H] i Hi. rewrite forallb_true_iff in H.
    specialize (H i Hi). apply bit_is_set_true in H.
    rewrite run_calls_bit_iff in H; [| apply fresh_shaped; lia | cbn; lia].
    destruct H as [H|H]; [|exact H]. exfalso. exact (fresh_no_bit _ _ _ _ _ H).
  - intros H. f_equal. apply forallb_true_iff. intros i Hi.
    apply bit_is_set_true.
    apply run_calls_bit_iff; [apply fresh_shaped; lia | cbn; lia |].
    right. apply H, Hi.
Qed.

(** A positive answer is never taken back: once [find(key)] has returned
    [True] on a constructed filter of at least one bit (for an inserted key
    or not), it returns [True] after any further calls. *)
Theorem find_true_is_stable (n d : Z) (P : float) (N : Z)
    (cs later : list call) (key : Key) :
  1 <= N ->
  result (find key (run_calls cs (fresh n d P N))) = Ok true ->
  result (find key (run_calls later (run_calls cs (fresh n d P N)))) = Ok true.
Proof.
  intros HN.
  destruct (run_calls_fresh n d P N cs) as (Hs & _ & HNb & Hd); [lia|].
  set (s := run_calls cs (fresh n d P N)) in *.
  pose proof (run_calls_extends later s) as Hext.
  unfold find. rewrite !bind_attr.
  rewrite (find_loop_forallb key _ 0 s Hs ltac:(lia)).
  rewrite (find_loop_forallb key _ 0 (run_calls later s)
             (extends_shaped _ _ Hext Hs)
             ltac:(rewrite (extends_numBits _ _ Hext); lia)).
  rewrite (extends_numHashes _ _ Hext), (extends_numBits _ _ Hext).
  intros [= H]. f_equal. rewrite forallb_true_iff in *.
  intros i Hi. apply bit_is_set_true.
  eapply extends_bit_at; [exact Hext|]. apply bit_is_set_true, H, Hi.
Qed.

(** Inserting a key whose seed chain shares no index with that of [key]
    does not change what [find(key)] answers. *)
Theorem find_unaffected_by_disjoint_insert (n d : Z) (P : float) (N : Z)
    (cs : list call) (key other : Key) :
  1 <= N ->
  (forall i, i ∈ probe_seq key (Z.to_nat d) 0 N ->
             i ∉ probe_seq other (Z.to_nat d) 0 N) ->
  result (find key (final (insert other (run_calls cs (fresh n d P N)))))
  = result (find key (run_calls cs (fresh n d P N))).
Proof.
  intros HN Hdis.
  destruct (run_calls_fresh n d P N cs) as (Hs & _ & HNb & Hd); [lia|].
  set (s := run_calls cs (fresh n d P N)) in *.
  pose proof (insert_extends other s) as Hext.
  unfold find. rewrite !bind_attr.
  rewrite (find_loop_forallb key _ 0 s Hs ltac:(lia)).
  rewrite (find_loop_forallb key _ 0 (final (insert other s))
             (extends_shaped _ _ Hext Hs)
             ltac:(rewrite (extends_numBits _ _ Hext); lia)).
  rewrite (extends_numHashes _ _ Hext), (extends_numBits _ _ Hext), Hd, HNb.
  f_equal. apply forallb_agree. intros i Hi.
  pose proof (insert_bit_iff other s i Hs ltac:(lia)) as Hiff.
  rewrite <- !bit_is_set_true, Hd, HNb in Hiff.
  destruct (bit_is_set (__bitVector (final (insert other s))) i) eqn:E1,
           (bit_is_set (__bitVector s) i) eqn:E2; try reflexivity.
  - destruct (proj1 Hiff eq_refl) as [H|H]; [discriminate|].
    exfalso. exact (Hdis i Hi H).
  - apply Hiff. left. reflexivity.
Qed.

(** The order of two inserts does not matter: on a constructed filter of at
    least one bit, after any calls, inserting [k1] then [k2] leaves the same
    object (bits and count) as inserting [k2] then [k1]. *)
Theorem insert_commutes (n d : Z) (P : float) (N : Z)
    (cs : list call) (k1 k2 : Key) :
  1 <= N ->
  final (insert k2 (final (insert k1 (run_calls cs (fresh n d P N)))))
  = final (insert k1 (final (insert k2 (run_calls cs (fresh n d P N))))).
Proof.
  intros HN.
  destruct (run_calls_fresh n d P N cs) as (Hs & Hc & HNb & Hd); [lia|].
  set (s := run_calls cs (fresh n d P N)) in *.
  assert (HN0 : 0 < __numBits s) by lia.
  pose proof (insert_extends k1 s) as E1.
  pose proof (insert_extends k2 s) as E2.
  pose proof (insert_extends k2 (final (insert k1 s))) as E12.
  pose proof (insert_extends k1 (final (insert k2 s))) as E21.
  pose proof (extends_shaped _ _ E1 Hs) as Hs1.
  pose proof (extends_shaped _ _ E2 Hs) as Hs2.
  assert (HN1 : 0 < __numBits (final (insert k1 s)))
    by (rewrite (extends_numBits _ _ E1); exact HN0).
  assert (HN2 : 0 < __numBits (final (insert k2 s)))
    by (rewrite (extends_numBits _ _ E2); exact HN0).
  apply same_bits_same_filter.
  1-5: destruct E1 as (?&?&?&?&?&_), E2 as (?&?&?&?&?&_),
         E12 as (?&?&?&?&?&_), E21 as (?&?&?&?&?&_); congruence.
  - apply insert_counted, insert_counted, Hc.
  - apply insert_counted, insert_counted, Hc.
  - intros i.
    rewrite (insert_bit_iff k2 _ i Hs1 HN1), (insert_bit_iff k1 _ i Hs2 HN2).
    rewrite (insert_bit_iff k1 s i Hs HN0), (insert_bit_iff k2 s i Hs HN0).
    rewrite (extends_numHashes _ _ E1), (extends_numBits _ _ E1),
      (extends_numHashes _ _ E2), (extends_numBits _ _ E2).
    tauto.
Qed.

(** Exact growth of the count: on a constructed filter of at least one bit,
    after any calls, [insert(key)] raises [__bitCount] by the number of
    distinct indices on the key's seed chain whose bit held 0. *)
Theorem insert_count_exact (n d : Z) (P : float) (N : Z)
    (cs : list call) (key : Key) :
  1 <= N ->
  __bitCount (final (insert key (run_calls cs (fresh n d P N))))
  = __bitCount (run_calls cs (fresh n d P N))
    + Z.of_nat
        (length
           (remove_dups
              (filter (fun i => bit_is_set
                                  (__bitVector (run_calls cs (fresh n d P N))) i
                                = false)
                      (probe_seq key (Z.to_nat d) 0 N)))).
Proof.
  intros HN.
  destruct (run_calls_fresh n d P N cs) as (Hs & _ & HNb & Hd); [lia|].
  unfold insert. rewrite bind_attr, insert_loop_count_exact; [|exact Hs | lia].
  rewrite Hd, HNb. reflexivity.
Qed.

(** ** The driver *)

Lemma bind_Ok {A B : Type} (m : M A) (k : A -> M B) (s : BloomFilter) (a : A) :
  result (m s) = Ok a ->
  result (bind m k s) = result (k a (final (m s))) /\
  final (bind m k s) = final (k a (final (m s))).
Proof. intros H. unfold bind. rewrite H. split; reflexivity. Qed.

Lemma dbind_invoke {A B : Type} (m : M A) (k : A -> D B) (b : BloomFilter) :
  dbind (invoke m) k b =
  match result (m b) with
  | Ok a => k a (final (m b))
  | Raise e => mkDRun (Raise e) (final (m b)) []
  | Unmodelled => mkDRun Unmodelled (final (m b)) []
  end.
Proof.
  unfold dbind, invoke; cbn.
  destruct (result (m b)) as [a| |]; try reflexivity.
  destruct (k a (final (m b))); reflexivity.
Qed.

Lemma dbind_print {B : Type} (x : printed) (k : unit -> D B) (b : BloomFilter) :
  dbind (print x) k b =
  mkDRun (d_result (k tt b)) (d_final (k tt b)) (x :: d_printed (k tt b)).
Proof. reflexivity. Qed.

Lemma insert_Ok (key : Key) (s : BloomFilter) :
  shaped s -> 0 < __numBits s -> result (insert key s) = Ok tt.
Proof.
  intros Hs HN. unfold insert. rewrite bind_attr.
  apply insert_loop_ok; assumption.
Qed.

Lemma find_inserted (key : Key) (keys : list Key) (s : BloomFilter) :
  shaped s -> 0 < __numBits s -> key ∈ keys ->
  result (find key (run_calls (map Insert keys) s)) = Ok true.
Proof.
  intros Hs HN Hin.
  pose proof (run_calls_extends (map Insert keys) s) as Hext.
  unfold find. rewrite bind_attr.
  rewrite (find_loop_forallb key _ 0 _ (extends_shaped _ _ Hext Hs)
             ltac:(rewrite (extends_numBits _ _ Hext); lia)).
  f_equal. apply forallb_true_iff. intros i Hi. apply bit_is_set_true.
  apply run_calls_bit_iff; [exact Hs | exact HN |].
  right. exists key. split.
  - apply list_elem_of_fmap. exists key. auto.
  - rewrite (extends_numHashes _ _ Hext), (extends_numBits _ _ Hext) in Hi.
    exact Hi.
Qed.

Lemma insert_lines_run (n : nat) (line : Key) (file : list Key)
    (s : BloomFilter) :
  shaped s -> 0 < __numBits s ->
  result (insert_lines n line file s) = Ok tt /\
  final (insert_lines n line file s)
  = run_calls (map Insert (feed n line file)) s.
Proof.
  revert line file s. induction n as [|n IH]; intros line file s Hs HN.
  - split; reflexivity.
  - cbn [insert_lines feed map].
    destruct (bind_Ok (insert line)
                (fun _ => insert_lines n (fst (readline file)) (snd (readline file)))
                s tt (insert_Ok line s Hs HN)) as [-> ->].
    pose proof (insert_extends line s) as Hext.
    apply IH.
    + eapply extends_shaped; eassumption.
    + rewrite (extends_numBits _ _ Hext). exact HN.
Qed.

Lemma count_missing_run (n : nat) (line : Key) (file : list Key) (c : Z)
    (s : BloomFilter) :
  (forall l, l ∈ feed n line file -> result (find l s) = Ok true) ->
  result (count_missing n line file c s)
  = Ok (c, fst (feed_rest n line file), snd (feed_rest n line file)) /\
  final (count_missing n line file c s) = s.
Proof.
  revert line file c. induction n as [|n IH]; intros line file c Hall.
  - split; reflexivity.
  - cbn [count_missing feed_rest].
    assert (Hf : result (find line s) = Ok true)
      by (apply Hall; cbn; apply list_elem_of_here).
    destruct (bind_Ok (find line)
                (fun r => count_missing n (fst (readline file)) (snd (readline file))
                            (if negb r then c + 1 else c))
                s true Hf) as [-> ->].
    rewrite read_only_find. cbn [negb]. apply IH.
    intros l Hl. apply Hall. cbn. apply list_elem_of_further, Hl.
Qed.

Lemma count_found_run (n : nat) (line : Key) (file : list Key) (c : Z)
    (s : BloomFilter) :
  shaped s -> 0 < __numBits s ->
  result (count_found n line file c s) = Ok (c + hits s (feed n line file)) /\
  final (count_found n line file c s) = s.
Proof.
  intros Hs HN. revert line file c.
  induction n as [|n IH]; intros line file c.
  - cbn. split; [f_equal; lia | reflexivity].
  - cbn [count_found feed hits].
    assert (Hf : exists r, result (find line s) = Ok r).
    { unfold find. rewrite bind_attr. apply find_loop_answers; assumption. }
    destruct Hf as [r Hf].
    destruct (bind_Ok (find line)
                (fun r => count_found n (fst (readline file)) (snd (readline file))
                            (if r then c + 1 else c))
                s r Hf) as [-> ->].
    rewrite read_only_find, Hf.
    destruct (IH (fst (readline file)) (snd (readline file))
                 (if r then c + 1 else c)) as [-> ->].
    split; [|reflexivity]. f_equal. destruct r; lia.
Qed.

Lemma hits_bounds (s : BloomFilter) (lines : list Key) :
  0 <= hits s lines <= Z.of_nat (length lines).
Proof.
  induction lines as [|l lines IH]; cbn [hits length]; [lia|].
  destruct (result (find l s)) as [[|]| |]; lia.
Qed.

Lemma length_feed (n : nat) (line : Key) (file : list Key) :
  length (feed n line file) = n.
Proof.
  revert line file. induction n as [|n IH]; intros line file; cbn; [reflexivity|].
  rewrite IH. reflexivity.
Qed.

Lemma hits_all (s : BloomFilter) (lines : list Key) :
  (forall l, l ∈ lines -> result (find l s) = Ok true) ->
  hits s lines = Z.of_nat (length lines).
Proof.
  induction lines as [|l lines IH]; intros H; cbn [hits length]; [reflexivity|].
  rewrite (H l), IH; [lia | | apply list_elem_of_here].
  intros l' Hl'. apply H, list_elem_of_further, Hl'.
Qed.

Lemma feed_short_has_eof (n : nat) (wordlist : list Key) :
  (length wordlist < n)%nat ->
  eof_line ∈ feed n (fst (readline wordlist)) (snd (readline wordlist)).
Proof.
  revert wordlist. induction n as [|n IH]; intros w Hlen; [lia|].
  cbn [feed]. destruct w as [|x w]; cbn [readline fst snd].
  - apply list_elem_of_here.
  - apply list_elem_of_further. apply IH. cbn in Hlen. lia.
Qed.

Lemma feed_rest_short (n : nat) (wordlist : list Key) :
  (length wordlist < n)%nat ->
  feed_rest n (fst (readline wordlist)) (snd (readline wordlist)) = (eof_line, []).
Proof.
  revert wordlist. induction n as [|n IH]; intros w Hlen; [lia|].
  cbn [feed_rest]. destruct w as [|x w]; cbn [readline fst snd].
  - destruct n as [|n]; [reflexivity|]. apply (IH []). cbn. lia.
  - apply IH. cbn in Hlen. lia.
Qed.

Lemma feed_eof (n : nat) : forall l, l ∈ feed n eof_line [] -> l = eof_line.
Proof.
  induction n as [|n IH]; intros l Hl; cbn in Hl; [inversion Hl|].
  apply elem_of_cons in Hl as [->|Hl]; [reflexivity | apply IH, Hl].
Qed.

Lemma main_body_run (numKeys d : Z) (P : float) (N : Z) (wordlist : list Key) :
  1 <= N ->
  main_body numKeys wordlist (fresh numKeys d P N)
  = let n := Z.to_nat numKeys in
    let l0 := fst (readline wordlist) in
    let f0 := snd (readline wordlist) in
    let b1 := run_calls (map Insert (feed n l0 f0)) (fresh numKeys d P N) in
    let found := hits b1 (feed n (fst (feed_rest n l0 f0)) (snd (feed_rest n l0 f0))) in
    match result (falsePositiveRate b1) with
    | Ok p =>
        mkDRun (obind (int_truediv found numKeys) (fun _ => Ok tt)) b1
          ([Projected p; Missing 0; FalselyFound found]
           ++ match int_truediv found numKeys with
              | Ok q => [Actual q]
              | _ => []
              end)
    | Raise e => mkDRun (Raise e) b1 []
    | Unmodelled => mkDRun Unmodelled b1 []
    end.
Proof.
  intros HN. cbn zeta.
  set (n := Z.to_nat numKeys).
  set (l0 := fst (readline wordlist)). set (f0 := snd (readline wordlist)).
  set (b := fresh numKeys d P N).
  assert (Hs : shaped b) by (apply fresh_shaped; lia).
  assert (HNb : 0 < __numBits b) by (cbn; lia).
  destruct (insert_lines_run n l0 f0 b Hs HNb) as [Hr1 Hf1].
  set (b1 := run_calls (map Insert (feed n l0 f0)) b) in *.
  pose proof (run_calls_extends (map Insert (feed n l0 f0)) b) as Hext.
  fold b1 in Hext.
  assert (Hs1 : shaped b1) by (eapply extends_shaped; eassumption).
  assert (HN1 : 0 < __numBits b1) by (rewrite (extends_numBits _ _ Hext); exact HNb).
  unfold main_body. fold n l0 f0.
  rewrite dbind_invoke, Hr1, Hf1, dbind_invoke, read_only_falsePositiveRate.
  destruct (result (falsePositiveRate b1)) as [p| |]; try reflexivity.
  rewrite dbind_print, dbind_invoke.
  destruct (count_missing_run n l0 f0 0 b1) as [Hr2 Hf2].
  { intros l Hl. apply find_inserted; [exact Hs | exact HNb | exact Hl]. }
  rewrite Hr2, Hf2. cbn [fst snd]. rewrite dbind_print, dbind_invoke.
  destruct (count_found_run n (fst (feed_rest n l0 f0)) (snd (feed_rest n l0 f0))
              0 b1 Hs1 HN1) as [Hr3 Hf3].
  rewrite Hr3, Hf3, Z.add_0_l, dbind_print, dbind_invoke. cbn [lift result final].
  destruct (int_truediv _ numKeys) as [q| |]; reflexivity.
Qed.



End Hashing.

Arguments Insert {Key} key.
Arguments Find {Key} key.
Arguments FalsePositiveRate {Key}.
Arguments NumBitsSet {Key}.

(** ** The claims on sample data

    Keys are integers hashed by [demo_hash]; [demo_filter] is the object
    [__init__] leaves for 10 keys and 3 hashes when the sizing returns 8. *)

(** C1 at [demo_filter]: key 5 inserted after some calls is found after
    some more. *)
Lemma no_false_negatives_witness :
  1 <= 8 /\
  result (insert Z demo_hash 5
            (run_calls Z demo_hash [Insert 1; Find 2] (fresh 10 3 0.5 8)))
  = Ok tt /\
  result (find Z demo_hash 5
            (run_calls Z demo_hash [Insert 7; FalsePositiveRate; NumBitsSet]
               (final (insert Z demo_hash 5
                         (run_calls Z demo_hash [Insert 1; Find 2]
                            (fresh 10 3 0.5 8))))))
  = Ok true.
Proof.
  split; [lia|].
  apply (no_false_negatives Z demo_hash 10 3 0.5 8 [Insert 1; Find 2] 5
           [Insert 7; FalsePositiveRate; NumBitsSet]).
  lia.
Defined.




(** C4 at [demo_filter] after a few calls. *)
Lemma occupancy_invariant_witness :
  0 <= 8 /\
  let s := run_calls Z demo_hash [Insert 5; Insert 9; Find 5; Insert 5]
             (fresh 10 3 0.5 8) in
  __bitCount s = Z.of_nat (BitVector.count_ones (__bitVector s)) /\
  0 <= __bitCount s <= __numBits s /\
  numBitsSet s
  = mkRun (Ok (Z.of_nat (BitVector.count_ones (__bitVector s)))) s [].
Proof.
  split; [lia|].
  apply (occupancy_invariant Z demo_hash 10 3 0.5 8
           [Insert 5; Insert 9; Find 5; Insert 5]).
  lia.
Defined.

(** C5 fails as stated: on the empty [demo_filter], [find(5)] makes one
    probe where [insert(5)] makes [numHashes = 3]. *)
Lemma find_probes_fewer_than_insert :
  probes (find Z demo_hash 5 demo_filter) = [2] /\
  probes (insert Z demo_hash 5 demo_filter) = [2; 4; 6].
Proof. split; vm_compute; reflexivity. Qed.

(** C5 (as amended) at [demo_filter] after an insert of another key. *)
Lemma find_probes_prefix_of_insert_witness :
  1 <= 8 /\
  let s := run_calls Z demo_hash [Insert 9] (fresh 10 3 0.5 8) in
  probes (insert Z demo_hash 5 s) = probe_seq Z demo_hash 5 (Z.to_nat 3) 0 8 /\
  length (probes (insert Z demo_hash 5 s)) = Z.to_nat 3 /\
  (exists rest,
     probes (insert Z demo_hash 5 s) = probes (find Z demo_hash 5 s) ++ rest) /\
  (exists b, result (find Z demo_hash 5 s) = Ok b) /\
  (result (find Z demo_hash 5 s) = Ok true ->
   probes (find Z demo_hash 5 s) = probes (insert Z demo_hash 5 s)) /\
  (result (find Z demo_hash 5 s) = Ok false ->
   exists front i,
     probes (find Z demo_hash 5 s) = front ++ [i] /\
     BitVector.bit_at (__bitVector s) i = Some false /\
     Forall (fun j => BitVector.bit_at (__bitVector s) j = Some true) front).
Proof.
  split; [lia|].
  apply (find_probes_prefix_of_insert Z demo_hash 10 3 0.5 8 [Insert 9] 5).
  lia.
Defined.

(** C10 at [demo_filter]. *)
Lemma find_on_fresh_is_false_witness :
  1 <= 3 /\ 1 <= 8 /\
  find Z demo_hash 5 (fresh 10 3 0.5 8)
  = mkRun (Ok false) (fresh 10 3 0.5 8) [demo_hash 5 0 mod 8].
Proof.
  split; [lia|]. split; [lia|].
  apply (find_on_fresh_is_false Z demo_hash 10 3 0.5 8 5); lia.
Defined.

(** Insert and find return on [demo_filter] after an insert. *)
Lemma insert_find_never_raise_witness :
  1 <= 8 /\
  result (insert Z demo_hash 5 (run_calls Z demo_hash [Insert 9] (fresh 10 3 0.5 8)))
  = Ok tt /\
  exists b,
    result (find Z demo_hash 5 (run_calls Z demo_hash [Insert 9] (fresh 10 3 0.5 8)))
    = Ok b.
Proof.
  split; [lia|].
  apply (insert_find_never_raise Z demo_hash 10 3 0.5 8 [Insert 9] 5). lia.
Defined.

(** A filter of zero bits with three hashes. *)
Lemma zero_bits_filter_raises_witness :
  1 <= 3 /\
  insert Z demo_hash 5 (fresh 10 3 0.5 0)
  = mkRun (Raise ZeroDivisionError) (fresh 10 3 0.5 0) [] /\
  find Z demo_hash 5 (fresh 10 3 0.5 0)
  = mkRun (Raise ZeroDivisionError) (fresh 10 3 0.5 0) [].
Proof.
  split; [lia|].
  apply (zero_bits_filter_raises Z demo_hash 10 3 0.5 5). lia.
Defined.



(** ** The further properties on sample data

    With [demo_hash] on 8 bits and 3 hashes, keys 1 and 5 have the seed
    chains [6; 4; 2] and [2; 4; 6], key 3 has [4; 0; 4] and key 7 has
    [0; 0; 0]. *)

(** What find answers for key 5 after key 1 was inserted. *)
Lemma find_answers_all_probes_set_witness :
  1 <= 8 /\
  result (find Z demo_hash 5 (run_calls Z demo_hash [Insert 1] (fresh 10 3 0.5 8)))
  = Ok (forallb
          (bit_is_set (__bitVector
                         (run_calls Z demo_hash [Insert 1] (fresh 10 3 0.5 8))))
          (probe_seq Z demo_hash 5 (Z.to_nat 3) 0 8)).
Proof.
  split; [lia|].
  apply (find_answers_all_probes_set Z demo_hash 10 3 0.5 8 [Insert 1] 5). lia.
Defined.

(** Bit 4 after an insert of key 1 and a find. *)
Lemma set_bits_are_inserted_probes_witness :
  1 <= 8 /\
  (BitVector.bit_at
     (__bitVector (run_calls Z demo_hash [Insert 1; Find 2] (fresh 10 3 0.5 8))) 4
   = Some true <->
   exists key, Insert key ∈ [Insert 1; Find 2] /\
               4 ∈ probe_seq Z demo_hash key (Z.to_nat 3) 0 8).
Proof.
  split; [lia|].
  apply (set_bits_are_inserted_probes Z demo_hash 10 3 0.5 8 [Insert 1; Find 2] 4).
  lia.
Defined.

(** Key 5 against a filter that holds key 1 only. *)
Lemma find_true_iff_probes_covered_witness :
  1 <= 8 /\
  (result (find Z demo_hash 5 (run_calls Z demo_hash [Insert 1] (fresh 10 3 0.5 8)))
   = Ok true <->
   forall i, i ∈ probe_seq Z demo_hash 5 (Z.to_nat 3) 0 8 ->
     exists key', Insert key' ∈ [Insert 1] /\
                  i ∈ probe_seq Z demo_hash key' (Z.to_nat 3) 0 8).
Proof.
  split; [lia|].
  apply (find_true_iff_probes_covered Z demo_hash 10 3 0.5 8 [Insert 1] 5). lia.
Defined.

(** Key 5, reported after the insert of key 1, is still reported later. *)
Lemma find_true_is_stable_witness :
  1 <= 8 /\
  result (find Z demo_hash 5 (run_calls Z demo_hash [Insert 1] (fresh 10 3 0.5 8)))
  = Ok true /\
  result (find Z demo_hash 5
            (run_calls Z demo_hash [Insert 7; Find 3]
               (run_calls Z demo_hash [Insert 1] (fresh 10 3 0.5 8))))
  = Ok true.
Proof.
  split; [lia|]. split; [vm_compute; reflexivity|].
  apply (find_true_is_stable Z demo_hash 10 3 0.5 8 [Insert 1] [Insert 7; Find 3] 5).
  - lia.
  - vm_compute. reflexivity.
Defined.

(** Key 7 shares no index with key 5. *)
Lemma find_unaffected_by_disjoint_insert_witness :
  1 <= 8 /\
  (forall i, i ∈ probe_seq Z demo_hash 5 (Z.to_nat 3) 0 8 ->
             i ∉ probe_seq Z demo_hash 7 (Z.to_nat 3) 0 8) /\
  result (find Z demo_hash 5
            (final (insert Z demo_hash 7
                      (run_calls Z demo_hash [Insert 3] (fresh 10 3 0.5 8)))))
  = result (find Z demo_hash 5
              (run_calls Z demo_hash [Insert 3] (fresh 10 3 0.5 8))).
Proof.
  assert (Hdis : forall i, i ∈ probe_seq Z demo_hash 5 (Z.to_nat 3) 0 8 ->
                           i ∉ probe_seq Z demo_hash 7 (Z.to_nat 3) 0 8).
  { intros i Hi Hi'.
    change (probe_seq Z demo_hash 5 (Z.to_nat 3) 0 8) with [2; 4; 6] in Hi.
    change (probe_seq Z demo_hash 7 (Z.to_nat 3) 0 8) with [0; 0; 0] in Hi'.
    rewrite !elem_of_cons, elem_of_nil in Hi, Hi'. lia. }
  split; [lia|]. split; [exact Hdis|].
  apply (find_unaffected_by_disjoint_insert Z demo_hash 10 3 0.5 8 [Insert 3] 5 7);
    [lia | exact Hdis].
Defined.

(** Keys 5 and 7 in either order. *)
Lemma insert_commutes_witness :
  1 <= 8 /\
  final (insert Z demo_hash 7
           (final (insert Z demo_hash 5
                     (run_calls Z demo_hash [Insert 3] (fresh 10 3 0.5 8)))))
  = final (insert Z demo_hash 5
             (final (insert Z demo_hash 7
                       (run_calls Z demo_hash [Insert 3] (fresh 10 3 0.5 8))))).
Proof.
  split; [lia|].
  apply (insert_commutes Z demo_hash 10 3 0.5 8 [Insert 3] 5 7). lia.
Defined.

(** Key 5 after key 3: bit 4 is taken, bits 2 and 6 are new. *)
Lemma insert_count_exact_witness :
  1 <= 8 /\
  __bitCount (final (insert Z demo_hash 5
                       (run_calls Z demo_hash [Insert 3] (fresh 10 3 0.5 8))))
  = __bitCount (run_calls Z demo_hash [Insert 3] (fresh 10 3 0.5 8))
    + Z.of_nat
        (length
           (remove_dups
              (filter (fun i => bit_is_set
                                  (__bitVector
                                     (run_calls Z demo_hash [Insert 3]
                                        (fresh 10 3 0.5 8))) i
                                = false)
                      (probe_seq Z demo_hash 5 (Z.to_nat 3) 0 8)))).
Proof.
  split; [lia|].
  apply (insert_count_exact Z demo_hash 10 3 0.5 8 [Insert 3] 5). lia.
Defined.


